(** * OK PDF: the page-composition and text-layout core of [pdfService]

    A shallow embedding of the five exported functions of the PDF service
    ([mergePdfs], [splitPdf], [editPdf], [extractText], [createPdfFromText])
    together with the properties the specification states about them, and
    of the handlers of the application shell that call them.

    Conventions of the embedding.
    - JavaScript numbers that carry coordinates and sizes are modelled as
      exact rationals ([Q]); page numbers and indices, which the caller
      obtains through [parseInt], are modelled as integers ([Z]).
    - JavaScript strings are modelled by [string]; one character stands for
      one UTF-16 code unit.
    - The documents of the PDF library are mutable objects.  They live in a
      store; a document is named by a reference into the store and a page by
      its document and its position in it.  An [async] function is a
      computation over that store which may throw.
    - What the libraries decide is a parameter: what a file parses to, the
      bytes of a document, the size of a default page, and the characters
      a standard font can encode.  What the library is known to do with
      them is modelled: [drawText] throws at a character the font cannot
      encode, and [save] gives a document without pages a default page. *)

From Stdlib Require Import ZArith QArith Qround Lqa Lia String Ascii DecimalString
  DecimalNat.
From stdpp Require Import base option list.

Close Scope Q_scope.
Open Scope nat_scope.

(** ** Data model *)

(** [StandardFonts] of the PDF library, restricted to the two the service
    embeds. *)
Inductive StandardFonts : Set := Helvetica | HelveticaBold.

(** The result of [rgb(r, g, b)]. *)
Record Color : Set := rgb { red : Q; green : Q; blue : Q }.

(** The option object handed to [page.drawText]. *)
Record DrawTextOptions : Set := {
  dt_x : Q;
  dt_y : Q;
  dt_size : Q;
  dt_font : StandardFonts;
  dt_color : Color;
  dt_opacity : option Q
}.

(** A page: its geometry, the content it was loaded with (opaque), and the
    text operations drawn on it since, oldest first. *)
Record PDFPage : Set := {
  pageWidth : Q;
  pageHeight : Q;
  pageContent : string;
  pageDrawn : list (string * DrawTextOptions)
}.

(** A document: its pages in order and the fonts embedded in it. *)
Record PDFDocument : Set := {
  docPages : list PDFPage;
  docFonts : list StandardFonts
}.

Definition DocRef : Set := nat.
Definition PageRef : Set := (DocRef * nat)%type.
Definition Store : Set := list PDFDocument.

(** What the libraries throw: a file that does not parse, a reference or
    an index that names nothing, and a text with a character the font
    cannot encode. *)
Inductive Error : Set :=
| ParseError | InvalidReference | IndexOutOfRange | EncodingError.

Inductive Result (A : Type) : Type :=
| Ok (a : A)
| Throw (e : Error).
Arguments Ok {A} a.
Arguments Throw {A} e.

(** ** The computation monad: store passing with exceptions *)

Definition M (A : Type) : Type := Store → Result (A * Store).

Definition throw {A : Type} (e : Error) : M A := λ _, Throw e.

#[global] Instance M_ret : MRet M := λ A (a : A) st, Ok (a, st).

#[global] Instance M_bind : MBind M := λ A B (k : A → M B) (m : M A) st,
  match m st with
  | Ok (a, st') => k a st'
  | Throw e => Throw e
  end.

(** [for (const x of l) body], with the loop's mutable locals threaded
    through as [s]. *)
Fixpoint for_of {A S : Type} (l : list A) (s : S) (body : S → A → M S) : M S :=
  match l with
  | [] => mret s
  | x :: l' => s' ← body s x; for_of l' s' body
  end.

(** [l.forEach(f)]. *)
Definition forEach {A : Type} (l : list A) (f : A → M unit) : M unit :=
  for_of l tt (λ _ x, f x).

(** ** Numbers and strings of the host language *)

(** [a < b] on numbers. *)
Definition Qlt_bool (a b : Q) : bool := negb (Qle_bool b a).

(** The line feed character, and the one-character string ["\n"]. *)
Definition newline : ascii := Ascii.ascii_of_nat 10.

Definition nl : string := String newline EmptyString.

(** [s.split('\n')]: never empty; the empty string gives one empty line. *)
Fixpoint split_lines (s : string) : list string :=
  match s with
  | EmptyString => [EmptyString]
  | String c s' =>
      if Ascii.eqb c newline then EmptyString :: split_lines s'
      else match split_lines s' with
           | [] => [String c EmptyString]
           | l :: ls => String c l :: ls
           end
  end.

(** The first [n] characters of [s], and [s] without them. *)
Fixpoint string_take (n : nat) (s : string) : string :=
  match n, s with
  | S n', String c s' => String c (string_take n' s')
  | _, _ => EmptyString
  end.

Fixpoint string_drop (n : nat) (s : string) : string :=
  match n, s with
  | S n', String _ s' => string_drop n' s'
  | _, _ => s
  end.

(** [s.substring(start, end)]: both indices are clamped to the length and
    swapped when out of order. *)
Definition substring (s : string) (start end_ : nat) : string :=
  let a := Nat.min start (String.length s) in
  let b := Nat.min end_ (String.length s) in
  string_take (Nat.max a b - Nat.min a b) (string_drop (Nat.min a b) s).

(** [c.repeat(n)] for a one-character string [c]. *)
Fixpoint repeat_char (c : ascii) (n : nat) : string :=
  match n with
  | O => EmptyString
  | S n' => String c (repeat_char c n')
  end.

(** [items.join(sep)]. *)
Definition join (sep : string) (items : list string) : string :=
  String.concat sep items.

(** The decimal rendering of a loop counter inside a template literal. *)
Definition toString (n : nat) : string :=
  DecimalString.NilEmpty.string_of_uint (Nat.to_uint n).

(** All the text operations drawn on the pages of a document, in page
    order and, within a page, in drawing order. *)
Definition drawnOps (pages : list PDFPage) : list (string * DrawTextOptions) :=
  concat (pageDrawn <$> pages).

(** The number of positions of [s] at which [m] occurs. *)
Fixpoint occurrences (m s : string) : nat :=
  (if String.prefix m s then 1 else 0) +
  match s with
  | EmptyString => 0
  | String _ s' => occurrences m s'
  end.

(** Whether the character [c] occurs in [s]. *)
Fixpoint contains_char (c : ascii) (s : string) : bool :=
  match s with
  | EmptyString => false
  | String c' s' => Ascii.eqb c c' || contains_char c s'
  end.

(** The fixed text that opens the delimiter line of every page block. *)
Definition pageMarker : string := "--- Page ".

(** The number of lines [createPdfFromText] draws on a page of the given
    height before the cursor falls under [margin + 20]: the lines drawn at
    [height - 50 - 17 * k] for the [k] with [70 <= height - 50 - 17 * k]. *)
Definition pageCapacity (height : Q) : nat :=
  Z.to_nat (Qfloor ((height - 120) / 17)%Q + 1).

#[local] Set Warnings "-abstract-large-number".

(** What a caller of an [async] function sees of a run: the value it
    resolves to, or the error it rejects with. *)
Definition outcome {A : Type} (r : Result (A * Store)) : Error + A :=
  match r with
  | Ok (a, _) => inr a
  | Throw e => inl e
  end.

(** The number of occurrences of the character [c] in [s]. *)
Fixpoint count_char (c : ascii) (s : string) : nat :=
  match s with
  | EmptyString => 0
  | String c' s' => (if Ascii.eqb c' c then 1 else 0) + count_char c s'
  end.

(** [s.endsWith(suffix)]. *)
Definition endsWith (s suffix : string) : bool :=
  (String.length suffix <=? String.length s) &&
  String.eqb (string_drop (String.length s - String.length suffix) s) suffix.

(** [s || d] on strings: the empty string counts as absent. *)
Definition or_else (s d : string) : string :=
  match s with
  | EmptyString => d
  | String _ _ => s
  end.

(** [s.split(c)] for a one-character separator [c]. *)
Fixpoint split_char (c : ascii) (s : string) : list string :=
  match s with
  | EmptyString => [EmptyString]
  | String ch s' =>
      if Ascii.eqb ch c then EmptyString :: split_char c s'
      else match split_char c s' with
           | [] => [String ch EmptyString]
           | l :: ls => String ch l :: ls
           end
  end.

(** The white space and line terminators of the host language among the
    code units below 256: tab, line feed, vertical tab, form feed,
    carriage return, space and no-break space. *)
Definition isWhiteSpace (c : ascii) : bool :=
  let n := nat_of_ascii c in
  (n =? 9) || (n =? 10) || (n =? 11) || (n =? 12) || (n =? 13) || (n =? 32)
  || (n =? 160).

Fixpoint trimStart (s : string) : string :=
  match s with
  | EmptyString => EmptyString
  | String c s' => if isWhiteSpace c then trimStart s' else s
  end.

Fixpoint trimEnd (s : string) : string :=
  match s with
  | EmptyString => EmptyString
  | String c s' =>
      match trimEnd s' with
      | EmptyString => if isWhiteSpace c then EmptyString
                       else String c EmptyString
      | t => String c t
      end
  end.

(** [s.trim()]. *)
Definition trim (s : string) : string := trimEnd (trimStart s).

(** The value of a character as a digit: [0-9], then [a-z] or [A-Z] for
    10 to 35. *)
Definition digitValue (c : ascii) : option Z :=
  let n := Z.of_nat (nat_of_ascii c) in
  if (48 <=? n)%Z && (n <=? 57)%Z then Some (n - 48)%Z
  else if (97 <=? n)%Z && (n <=? 122)%Z then Some (n - 87)%Z
  else if (65 <=? n)%Z && (n <=? 90)%Z then Some (n - 55)%Z
  else None.

(** The value of the longest prefix of [s] made of digits of radix
    [radix], read after the digits already valued [acc]; [None] while no
    digit has been read. *)
Fixpoint digitsPrefix (radix : Z) (s : string) (acc : option Z) : option Z :=
  match s with
  | EmptyString => acc
  | String c s' =>
      match digitValue c with
      | Some d =>
          if (d <? radix)%Z
          then digitsPrefix radix s' (Some (default 0 acc * radix + d)%Z)
          else acc
      | None => acc
      end
  end.

(** [parseInt(s)] without a radix: leading white space is skipped, a sign
    is read, [0x] or [0X] selects radix 16, and the longest prefix of
    digits is valued; [None] stands for [NaN].  The host rounds values
    beyond 2^53 to the nearest double; the model keeps them exact. *)
Definition parseInt (s : string) : option Z :=
  let s := trimStart s in
  let '(sign, s) :=
    match s with
    | String c s' =>
        if Ascii.eqb c "-" then ((-1)%Z, s')
        else if Ascii.eqb c "+" then (1%Z, s')
        else (1%Z, s)
    | EmptyString => (1%Z, s)
    end in
  let '(radix, s) :=
    match s with
    | String c0 (String c1 s') =>
        if Ascii.eqb c0 "0" && (Ascii.eqb c1 "x" || Ascii.eqb c1 "X")
        then (16%Z, s')
        else (10%Z, s)
    | _ => (10%Z, s)
    end in
  (λ n, (sign * n)%Z) <$> digitsPrefix radix s None.

(** The page numbers [runSplit] reads from the answer to its prompt:
    [pages.split(',').map(n => parseInt(n.trim())).filter(n => !isNaN(n))]. *)
Definition parsePageNumbers (pages : string) : list Z :=
  omap (λ n, parseInt (trim n)) (split_char "," pages).

(** The name [downloadBlob] saves under:
    [fileName.endsWith('.pdf') || fileName.endsWith('.doc') ? fileName
     : `${fileName}.pdf`]. *)
Definition finalName (fileName : string) : string :=
  if endsWith fileName ".pdf" || endsWith fileName ".doc" then fileName
  else (fileName ++ ".pdf")%string.

(** Whether every character of [s] satisfies [P]. *)
Fixpoint string_forallb (P : ascii → bool) (s : string) : bool :=
  match s with
  | EmptyString => true
  | String c s' => P c && string_forallb P s'
  end.

(** The decimal digits [0] to [9]. *)
Definition isDecimalDigit (c : ascii) : bool :=
  (48 <=? nat_of_ascii c) && (nat_of_ascii c <=? 57).

(** A page number as a user may type it: the decimal numeral of [n] with
    [before] spaces in front and [after] spaces behind. *)
Definition typedNumber (entry : nat * nat * nat) : string :=
  let '(before, n, after) := entry in
  (repeat_char " " before ++ toString n ++ repeat_char " " after)%string.

(** ** The application shell *)

Inductive ToolMode : Set :=
| HOME | READ | SPLIT | MERGE | CONVERT_DOC | EDIT | TRANSLATE | PHOTO_TO_PDF.

(** An uploaded file as the application keeps it. *)
Record FileData (File : Type) : Type := {
  fd_id : string;
  fd_file : File;
  fd_name : string;
  fd_size : nat
}.
Arguments fd_id {File} _.
Arguments fd_file {File} _.
Arguments fd_name {File} _.
Arguments fd_size {File} _.

Inductive Role : Set := RoleUser | RoleModel.

Record ChatMessage : Set := { role : Role; content : string }.

(** What a [catch] clause of the application can receive: an error of the
    PDF service, or an error of the browser or of the language-model
    client, of which only the message is kept. *)
Inductive Exception : Set :=
| ServiceError (e : Error)
| HostError (message : string).

(** [new Blob([part], { type })]: the application makes blobs of one part,
    either bytes or text. *)
Inductive BlobPart (Uint8Array : Type) : Type :=
| BytesPart (data : Uint8Array)
| TextPart (text : string).
Arguments BytesPart {Uint8Array} data.
Arguments TextPart {Uint8Array} text.

Record Blob (Uint8Array : Type) : Type := {
  blobPart : BlobPart Uint8Array;
  blobType : string
}.
Arguments blobPart {Uint8Array} _.
Arguments blobType {Uint8Array} _.

(** The [contents] of a request to the language model: a prompt, or an
    inline image (its base64 data, absent when [undefined], and its MIME
    type) followed by a prompt. *)
Inductive Contents : Set :=
| PromptContents (prompt : string)
| ImageContents (data : option string) (mimeType : string) (prompt : string).

(** The argument of [ai.models.generateContent]. *)
Record GenerateRequest : Set := {
  req_model : string;
  req_contents : Contents;
  req_systemInstruction : option string
}.

(** The state of the component ([useState]), the PDF objects of the
    page, and what the application has shown or saved so far, oldest
    first: alerts, downloads (the blob and the name it was saved under)
    and console errors. *)
Record World (File Uint8Array : Type) : Type := {
  mode : ToolMode;
  files : list (FileData File);
  loading : bool;
  chatHistory : list ChatMessage;
  inputText : string;
  status : string;
  outputFilename : string;
  heap : Store;
  alerts : list string;
  downloads : list (Blob Uint8Array * string);
  consoleErrors : list Exception
}.
Arguments mode {File Uint8Array} _.
Arguments files {File Uint8Array} _.
Arguments loading {File Uint8Array} _.
Arguments chatHistory {File Uint8Array} _.
Arguments inputText {File Uint8Array} _.
Arguments status {File Uint8Array} _.
Arguments outputFilename {File Uint8Array} _.
Arguments heap {File Uint8Array} _.
Arguments alerts {File Uint8Array} _.
Arguments downloads {File Uint8Array} _.
Arguments consoleErrors {File Uint8Array} _.

(** [text || fallback] on the text of a response, which may be
    [undefined]. *)
Definition text_or (text : option string) (fallback : string) : string :=
  match text with
  | Some (String c s) => String c s
  | _ => fallback
  end.

(** ** Sample inputs *)

(** A two-page document, a one-page document and the text items of a
    three-page document, used to run the service on concrete inputs.  For
    these runs a file is identified with what the codec parses from it and
    the serialized bytes with the document they encode. *)
Definition letterPage : PDFPage :=
  {| pageWidth := 612; pageHeight := 792; pageContent := "cover";
     pageDrawn := [] |}.

Definition cardPage : PDFPage :=
  {| pageWidth := 200; pageHeight := 100; pageContent := "card";
     pageDrawn := [] |}.

Definition reportDoc : PDFDocument :=
  {| docPages := [letterPage; cardPage]; docFonts := [] |}.

Definition cardDoc : PDFDocument :=
  {| docPages := [cardPage]; docFonts := [] |}.

Definition reportItems : list (list string) :=
  [["Hello"; "world"]; []; ["bye"]]%string.

(** The text items of a one-page document whose only fragment reads like a
    delimiter line. *)
Definition delimiterItems : list (list string) :=
  [["--- Page 1 ---"]]%string.

(** A text of 44 empty lines. *)
Definition longText : string := repeat_char newline 43.

(** Two uploaded files and an application at rest with both of them, a
    question typed and the default output name. *)
Definition reportFile : FileData PDFDocument :=
  {| fd_id := "k3j9x0q2a"; fd_file := reportDoc; fd_name := "report.pdf";
     fd_size := 2048 |}.

Definition cardFile : FileData PDFDocument :=
  {| fd_id := "p0m4z7c1e"; fd_file := cardDoc; fd_name := "card.pdf";
     fd_size := 512 |}.

Definition deskWorld : World PDFDocument PDFDocument :=
  {| mode := HOME; files := [reportFile; cardFile]; loading := false;
     chatHistory := []; inputText := "What is this?"; status := EmptyString;
     outputFilename := "result"; heap := []; alerts := []; downloads := [];
     consoleErrors := [] |}.

(** A language model that answers every request with the same text, a
    text reader that finds the sample items in every file, and a file
    reader that gives every file the same data URL. *)
Definition sampleModel (request : GenerateRequest)
    : Exception + option string :=
  inr (Some "Namaste"%string).

Definition sampleReader (file : PDFDocument) : option (list (list string)) :=
  Some reportItems.

Definition sampleDataURL (file : PDFDocument) : Exception + string :=
  inr "data:image/png;base64,aGVsbG8="%string.

(** The document that merging the two sample documents saves. *)
Definition mergedDoc : PDFDocument :=
  {| docPages := [letterPage; cardPage; cardPage]; docFonts := [] |}.


(** A document without pages. *)
Definition pagelessDoc : PDFDocument := {| docPages := []; docFonts := [] |}.

(** The font encoding of the runs: the printable ASCII characters, which
    WinAnsi encodes, and nothing else.  Like WinAnsi it has no code for
    the control character U+0081. *)
Definition printableAscii (font : StandardFonts) (c : ascii) : bool :=
  (32 <=? nat_of_ascii c) && (nat_of_ascii c <=? 126).


(** ** The external libraries *)

Section Service.

(** The uploaded file, the serialized output, and the two codecs.  Parsing
    may fail; serializing returns bytes. *)
Variable File : Type.
Variable Uint8Array : Type.
(** [PDFDocument.load(await file.arrayBuffer())] of the document library. *)
Variable parse : File → option PDFDocument.
(** The bytes [doc.save()] of the document library writes for a
    document.  They carry the dates the library stamps: runs are compared
    at one reading of the clock. *)
Variable serialize : PDFDocument → Uint8Array.
(** [getDocument({data}).promise] of the text reader: per page, the [str]
    fields of [getTextContent().items] in the reader's order. *)
Variable readItems : File → option (list (list string)).
(** The size of a page made by [addPage()] without arguments. *)
Variable defaultWidth defaultHeight : Q.
(** Whether [drawText] accepts a code unit in a font: the standard fonts
    encode text in WinAnsi, and the library throws at a character that
    encoding has no code for. *)
Variable drawable : StandardFonts → ascii → bool.

Local Open Scope Q_scope.

Definition getDoc (r : DocRef) : M PDFDocument := λ st,
  match st !! r with
  | Some d => Ok (d, st)
  | None => Throw InvalidReference
  end.

Definition setDoc (r : DocRef) (d : PDFDocument) : M unit := λ st,
  Ok (tt, <[r := d]> st).

Definition alloc (d : PDFDocument) : M DocRef := λ st,
  Ok (length st, st ++ [d]).

Definition PDFDocument_create : M DocRef :=
  alloc {| docPages := []; docFonts := [] |}.

Definition PDFDocument_load (file : File) : M DocRef :=
  match parse file with
  | Some d => alloc d
  | None => throw ParseError
  end.

Definition getPageCount (r : DocRef) : M Z :=
  d ← getDoc r; mret (Z.of_nat (length (docPages d))).

Definition getPageIndices (r : DocRef) : M (list Z) :=
  d ← getDoc r; mret (map Z.of_nat (seq 0 (length (docPages d)))).

Definition getPages (r : DocRef) : M (list PageRef) :=
  d ← getDoc r; mret (map (λ i, (r, i)) (seq 0 (length (docPages d)))).

Definition pageAt (pages : list PDFPage) (i : Z) : option PDFPage :=
  if (0 <=? i)%Z then pages !! Z.to_nat i else None.

(** [dst.copyPages(src, indices)]: fresh copies of the pages of [src] at
    [indices], not yet part of [dst]. *)
Definition copyPages (dst src : DocRef) (indices : list Z) : M (list PDFPage) :=
  d ← getDoc src;
  match mapM (pageAt (docPages d)) indices with
  | Some ps => mret ps
  | None => throw IndexOutOfRange
  end.

Definition blankPage : PDFPage :=
  {| pageWidth := defaultWidth; pageHeight := defaultHeight;
     pageContent := EmptyString; pageDrawn := [] |}.

(** [doc.addPage(page)] and [doc.addPage()]: the page goes last. *)
Definition addPage (r : DocRef) (page : option PDFPage) : M PageRef :=
  d ← getDoc r;
  setDoc r {| docPages := docPages d ++ [default blankPage page];
              docFonts := docFonts d |};;
  mret (r, length (docPages d)).

Definition embedFont (r : DocRef) (f : StandardFonts) : M StandardFonts :=
  d ← getDoc r;
  setDoc r {| docPages := docPages d; docFonts := docFonts d ++ [f] |};;
  mret f.

Definition getSize (p : PageRef) : M (Q * Q) :=
  d ← getDoc p.1;
  match docPages d !! p.2 with
  | Some pg => mret (pageWidth pg, pageHeight pg)
  | None => throw InvalidReference
  end.

Definition drawOn (text : string) (o : DrawTextOptions) (pg : PDFPage) : PDFPage :=
  {| pageWidth := pageWidth pg; pageHeight := pageHeight pg;
     pageContent := pageContent pg;
     pageDrawn := pageDrawn pg ++ [(text, o)] |}.

(** Whether a font can encode every character of a text. *)
Definition canEncode (font : StandardFonts) (text : string) : bool :=
  string_forallb (drawable font) text.

(** [page.drawText(text, options)]: the text is encoded in the font, which
    throws when the font cannot encode it; then the page is mutated inside
    its document. *)
Definition drawText (p : PageRef) (text : string) (o : DrawTextOptions) : M unit :=
  d ← getDoc p.1;
  match docPages d !! p.2 with
  | Some pg =>
      if canEncode (dt_font o) text
      then setDoc p.1 {| docPages := <[p.2 := drawOn text o pg]> (docPages d);
                         docFonts := docFonts d |}
      else throw EncodingError
  | None => throw InvalidReference
  end.

(** [doc.save()]: a document without pages is first given a default page
    ([if (this.getPageCount() === 0) this.addPage()] in the library); the
    document, so completed, is serialized. *)
Definition save (r : DocRef) : M Uint8Array :=
  pageCount ← getPageCount r;
  (if (pageCount =? 0)%Z then addPage r None;; mret tt else mret tt);;
  d ← getDoc r;
  mret (serialize d).

(** ** The service *)

(** The body of the [for (const file of files)] loop of [mergePdfs]. *)
Definition mergePdfs_file (mergedPdf : DocRef) (file : File) : M unit :=
  pdf ← PDFDocument_load file;
  indices ← getPageIndices pdf;
  copiedPages ← copyPages mergedPdf pdf indices;
  forEach copiedPages (λ page, addPage mergedPdf (Some page);; mret tt).

(** Merges multiple PDF files into a single PDF file. *)
Definition mergePdfs (files : list File) : M Uint8Array :=
  mergedPdf ← PDFDocument_create;
  for_of files tt (λ _ file, mergePdfs_file mergedPdf file);;
  save mergedPdf.

(** The index computation of [splitPdf]:
    [pageNumbers.map(n => n - 1).filter(n => n >= 0 && n < pageCount)]. *)
Definition splitPdf_indices (pageNumbers : list Z) (pageCount : Z) : list Z :=
  filter (λ n, (0 ≤ n)%Z ∧ (n < pageCount)%Z) (map (λ n, (n - 1)%Z) pageNumbers).

(** Extracts specific pages from a PDF. *)
Definition splitPdf (file : File) (pageNumbers : list Z) : M Uint8Array :=
  pdf ← PDFDocument_load file;
  newPdf ← PDFDocument_create;
  pageCount ← getPageCount pdf;
  let indices := splitPdf_indices pageNumbers pageCount in
  copiedPages ← copyPages newPdf pdf indices;
  forEach copiedPages (λ page, addPage newPdf (Some page);; mret tt);;
  save newPdf.

(** The body of the [for (const page of pages)] loop of [editPdf]. *)
Definition editPdf_page (font : StandardFonts) (overlayText : string)
    (page : PageRef) : M unit :=
  '(width, height) ← getSize page;
  drawText page overlayText
    {| dt_x := 50; dt_y := height - 50; dt_size := 30; dt_font := font;
       dt_color := rgb 0.9 0.1 0.1; dt_opacity := Some 0.5 |}.

(** Adds a simple text overlay to every page of the PDF. *)
Definition editPdf (file : File) (overlayText : string) : M Uint8Array :=
  pdf ← PDFDocument_load file;
  font ← embedFont pdf HelveticaBold;
  pages ← getPages pdf;
  for_of pages tt (λ _ page, editPdf_page font overlayText page);;
  save pdf.

(** [pdfjs.getDocument({ data }).promise]. *)
Definition getDocument (file : File) : M (list (list string)) :=
  match readItems file with
  | Some pdf => mret pdf
  | None => throw ParseError
  end.

(** [(await pdf.getPage(i)).getTextContent().items.map(item => item.str)];
    the text reader numbers pages from 1. *)
Definition getTextItems (pdf : list (list string)) (i : nat) : M (list string) :=
  match i with
  | O => throw IndexOutOfRange
  | S j => match pdf !! j with
           | Some items => mret items
           | None => throw IndexOutOfRange
           end
  end.

(** One iteration's contribution to [fullText]:
    [`--- Page ${i} ---\n${pageText}\n\n`]. *)
Definition pageBlock (i : nat) (pageText : string) : string :=
  ("--- Page " ++ toString i ++ " ---" ++ nl ++ pageText ++ nl ++ nl)%string.

(** The blocks of the pages of a document, the first page being numbered
    [i]. *)
Fixpoint pageBlocksFrom (i : nat) (pdf : list (list string)) : list string :=
  match pdf with
  | [] => []
  | items :: pdf' => pageBlock i (join " " items) :: pageBlocksFrom (S i) pdf'
  end.

(** Extracts text from a PDF file using the text reader. *)
Definition extractText (file : File) : M string :=
  pdf ← getDocument file;
  let numPages := length pdf in
  for_of (seq 1 numPages) EmptyString (λ fullText i,
    items ← getTextItems pdf i;
    let pageText := join " " items in
    mret (fullText ++ pageBlock i pageText)%string).

(** The body of the [for (const line of lines)] loop of
    [createPdfFromText]; [page] and [cursorY] are its mutable locals. *)
Definition createPdfFromText_line (pdfDoc : DocRef) (font : StandardFonts)
    (height : Q) (locals : PageRef * Q) (line : string) : M (PageRef * Q) :=
  let fontSize : Q := 12 in
  let margin : Q := 50 in
  let '(page, cursorY) := locals in
  '(page, cursorY) ←
    (if Qlt_bool cursorY (margin + 20)
     then page' ← addPage pdfDoc None; mret (page', height - margin)
     else mret (page, cursorY));
  drawText page (substring line 0 100)
    {| dt_x := margin; dt_y := cursorY; dt_size := fontSize; dt_font := font;
       dt_color := rgb 0 0 0; dt_opacity := None |};;
  mret (page, cursorY - (fontSize + 5)).

(** Creates a simple PDF from text. *)
Definition createPdfFromText (text title : string) : M Uint8Array :=
  pdfDoc ← PDFDocument_create;
  font ← embedFont pdfDoc Helvetica;
  page ← addPage pdfDoc None;
  '(width, height) ← getSize page;
  let margin : Q := 50 in
  let lines := split_lines text in
  let cursorY := height - margin in
  for_of lines (page, cursorY) (createPdfFromText_line pdfDoc font height);;
  save pdfDoc.

(** ** Pure readings of [save] and of the two drawing loops *)

(** The pages of a document once [save] has run on it. *)
Definition savedPages (pages : list PDFPage) : list PDFPage :=
  match pages with
  | [] => [blankPage]
  | _ :: _ => pages
  end.

(** Whether Helvetica can encode what [createPdfFromText] draws of every
    line: its first 100 characters. *)
Definition linesEncodable (lines : list string) : bool :=
  forallb (λ line, canEncode Helvetica (substring line 0 100)) lines.

(** What one iteration of [editPdf] does to a page. *)
Definition overlay (overlayText : string) (pg : PDFPage) : PDFPage :=
  drawOn overlayText
    {| dt_x := 50; dt_y := pageHeight pg - 50; dt_size := 30;
       dt_font := HelveticaBold; dt_color := rgb 0.9 0.1 0.1;
       dt_opacity := Some 0.5 |} pg.

(** The options [createPdfFromText] draws a line with at height [y]. *)
Definition lineOptions (y : Q) : DrawTextOptions :=
  {| dt_x := 50; dt_y := y; dt_size := 12; dt_font := Helvetica;
     dt_color := rgb 0 0 0; dt_opacity := None |}.

(** A line of the layout is drawn either at or above [margin + 20], or at
    the top of a page. *)
Definition lineDrawn (o : DrawTextOptions) : Prop :=
  ∃ y, o = lineOptions y ∧ (50 + 20 <= y ∨ y = defaultHeight - 50).

(** What one iteration of [createPdfFromText] does to the pages of the
    document, the position of the current page and the cursor. *)
Definition layoutStep (s : list PDFPage * nat * Q) (line : string)
    : list PDFPage * nat * Q :=
  let '(pages, idx, y) := s in
  let '(pages, idx, y) :=
    if Qlt_bool y (50 + 20)
    then (pages ++ [blankPage], length pages, defaultHeight - 50)
    else (pages, idx, y) in
  (alter (drawOn (substring line 0 100) (lineOptions y)) idx pages, idx,
   y - (12 + 5)).

Definition layout (lines : list string) : list PDFPage * nat * Q :=
  fold_left layoutStep lines ([blankPage], O, defaultHeight - 50).

Local Close Scope Q_scope.

(** ** The layout in closed form *)

(** The cursor of [createPdfFromText] after [j] lines on a page: [j] times
    [cursorY -= fontSize + 5] from [height - margin]. *)
Definition cursorAfter (j : nat) : Q :=
  Nat.iter j (λ cursorY, cursorY - (12 + 5))%Q (defaultHeight - 50)%Q.

(** The text operation of a line drawn as the [j]-th line of its page,
    counting from 0. *)
Definition lineOp (j : nat) (line : string) : string * DrawTextOptions :=
  (substring line 0 100, lineOptions (cursorAfter j)).

(** The state of the loop of [createPdfFromText] once the lines [done] are
    drawn, a page holding [c] lines: every page before the current one is
    full, the current page holds [j] lines, the cursor is where [j] lines
    leave it, and line [k] is line [k mod c] of page [k / c]. *)
Definition laidOut (c : nat) (done : list string)
    (s : list PDFPage * nat * Q) : Prop :=
  ∃ j,
    length s.1.1 = S s.1.2
    ∧ s.2 = cursorAfter j
    ∧ j ≤ c
    ∧ length done = s.1.2 * c + j
    ∧ (j = 0 → s.1.2 = 0)
    ∧ (∀ i pg, s.1.1 !! i = Some pg →
         length (pageDrawn pg) = if decide (i = s.1.2) then j else c)
    ∧ (∀ k line, done !! k = Some line →
         ∃ pg, s.1.1 !! (k / c) = Some pg
               ∧ pageDrawn pg !! (k mod c) = Some (lineOp (k mod c) line)).

(** ** The application shell *)

(** A handler is run from its first statement to its last on the state it
    was created with: no other event comes between, as the busy flag is
    meant to ensure.  The state updates of a handler then apply in the
    order they are written. *)

(** The language-model client and the browser.  [new GoogleGenAI(...)]
    and [generateContent] may throw; the text of a response may be
    absent.  [FileReader.readAsDataURL] gives the data URL of a file or
    fails.  A file has a MIME type, a name and a size. *)
Variable newGoogleGenAI : Exception + unit.
Variable generateContent : GenerateRequest → Exception + option string.
Variable readAsDataURL : File → Exception + string.
Variable file_type : File → string.
Variable file_name : File → string.
Variable file_size : File → nat.

Definition setMode (m : ToolMode) (w : World File Uint8Array)
    : World File Uint8Array :=
  {| mode := m; files := files w; loading := loading w;
     chatHistory := chatHistory w; inputText := inputText w;
     status := status w; outputFilename := outputFilename w;
     heap := heap w; alerts := alerts w; downloads := downloads w;
     consoleErrors := consoleErrors w |}.

(** [setFiles(prev => f(prev))]. *)
Definition setFiles (f : list (FileData File) → list (FileData File))
    (w : World File Uint8Array) : World File Uint8Array :=
  {| mode := mode w; files := f (files w); loading := loading w;
     chatHistory := chatHistory w; inputText := inputText w;
     status := status w; outputFilename := outputFilename w;
     heap := heap w; alerts := alerts w; downloads := downloads w;
     consoleErrors := consoleErrors w |}.

Definition setLoading (b : bool) (w : World File Uint8Array)
    : World File Uint8Array :=
  {| mode := mode w; files := files w; loading := b;
     chatHistory := chatHistory w; inputText := inputText w;
     status := status w; outputFilename := outputFilename w;
     heap := heap w; alerts := alerts w; downloads := downloads w;
     consoleErrors := consoleErrors w |}.

(** [setChatHistory(prev => f(prev))]. *)
Definition setChatHistory (f : list ChatMessage → list ChatMessage)
    (w : World File Uint8Array) : World File Uint8Array :=
  {| mode := mode w; files := files w; loading := loading w;
     chatHistory := f (chatHistory w); inputText := inputText w;
     status := status w; outputFilename := outputFilename w;
     heap := heap w; alerts := alerts w; downloads := downloads w;
     consoleErrors := consoleErrors w |}.

Definition setInputText (s : string) (w : World File Uint8Array)
    : World File Uint8Array :=
  {| mode := mode w; files := files w; loading := loading w;
     chatHistory := chatHistory w; inputText := s;
     status := status w; outputFilename := outputFilename w;
     heap := heap w; alerts := alerts w; downloads := downloads w;
     consoleErrors := consoleErrors w |}.

Definition setStatus (s : string) (w : World File Uint8Array)
    : World File Uint8Array :=
  {| mode := mode w; files := files w; loading := loading w;
     chatHistory := chatHistory w; inputText := inputText w;
     status := s; outputFilename := outputFilename w;
     heap := heap w; alerts := alerts w; downloads := downloads w;
     consoleErrors := consoleErrors w |}.

Definition setHeap (h : Store) (w : World File Uint8Array)
    : World File Uint8Array :=
  {| mode := mode w; files := files w; loading := loading w;
     chatHistory := chatHistory w; inputText := inputText w;
     status := status w; outputFilename := outputFilename w;
     heap := h; alerts := alerts w; downloads := downloads w;
     consoleErrors := consoleErrors w |}.

(** [alert(message)]. *)
Definition alert (message : string) (w : World File Uint8Array)
    : World File Uint8Array :=
  {| mode := mode w; files := files w; loading := loading w;
     chatHistory := chatHistory w; inputText := inputText w;
     status := status w; outputFilename := outputFilename w;
     heap := heap w; alerts := alerts w ++ [message];
     downloads := downloads w; consoleErrors := consoleErrors w |}.

(** [console.error(e)]. *)
Definition console_error (e : Exception) (w : World File Uint8Array)
    : World File Uint8Array :=
  {| mode := mode w; files := files w; loading := loading w;
     chatHistory := chatHistory w; inputText := inputText w;
     status := status w; outputFilename := outputFilename w;
     heap := heap w; alerts := alerts w; downloads := downloads w;
     consoleErrors := consoleErrors w ++ [e] |}.

(** The click on the link [downloadBlob] makes: the blob is saved under
    the name. *)
Definition saveAs (blob : Blob Uint8Array) (name : string)
    (w : World File Uint8Array) : World File Uint8Array :=
  {| mode := mode w; files := files w; loading := loading w;
     chatHistory := chatHistory w; inputText := inputText w;
     status := status w; outputFilename := outputFilename w;
     heap := heap w; alerts := alerts w;
     downloads := downloads w ++ [(blob, name)];
     consoleErrors := consoleErrors w |}.

(** The body of a [try] block: it changes the world and either goes on
    with a value or throws. *)
Definition Try (A : Type) : Type :=
  World File Uint8Array → (Exception + A) * World File Uint8Array.

Definition andThen {A B : Type} (m : Try A) (k : A → Try B) : Try B := λ w,
  match m w with
  | (inr a, w') => k a w'
  | (inl e, w') => (inl e, w')
  end.

(** [await] of a call of the PDF service. *)
Definition await {A : Type} (m : M A) : Try A := λ w,
  match m (heap w) with
  | Ok (a, h) => (inr a, setHeap h w)
  | Throw e => (inl (ServiceError e), w)
  end.

(** A call of the browser or of the language-model client. *)
Definition host {A : Type} (r : Exception + A) : Try A := λ w, (r, w).

(** A statement that cannot throw. *)
Definition perform (f : World File Uint8Array → World File Uint8Array)
    : Try unit := λ w, (inr tt, f w).

(** [try { body } catch (e) { handler } finally { cleanup }]. *)
Definition try_catch_finally (body : Try unit)
    (handler : Exception → World File Uint8Array → World File Uint8Array)
    (cleanup : World File Uint8Array → World File Uint8Array)
    (w : World File Uint8Array) : World File Uint8Array :=
  match body w with
  | (inr _, w') => cleanup w'
  | (inl e, w') => cleanup (handler e w')
  end.

(** [handleFileUpload]: [picked] is [e.target.files], each file with the
    identifier [Math.random()] gave it. *)
Definition handleFileUpload (picked : option (list (string * File)))
    (w : World File Uint8Array) : World File Uint8Array :=
  match picked with
  | Some fs =>
      let newFiles :=
        (λ '(id, f), {| fd_id := id; fd_file := f; fd_name := file_name f;
                        fd_size := file_size f |}) <$> fs in
      setFiles (λ prev, prev ++ newFiles) w
  | None => w
  end.

Definition removeFile (id : string) (w : World File Uint8Array)
    : World File Uint8Array :=
  setFiles (λ prev, List.filter (λ f, negb (String.eqb (fd_id f) id)) prev) w.

Definition downloadBlob (data : Uint8Array + Blob Uint8Array)
    (name : string) (w : World File Uint8Array) : World File Uint8Array :=
  let blob :=
    match data with
    | inl bytes => {| blobPart := BytesPart bytes;
                      blobType := "application/pdf" |}
    | inr blob => blob
    end in
  setStatus ("Saved as: " ++ finalName name)%string
    (saveAs blob (finalName name) w).

(** [fileToBase64]: what follows the first comma of the data URL, up to
    the next comma; [None] stands for [undefined]. *)
Definition fileToBase64 (file : File) : Exception + option string :=
  match readAsDataURL file with
  | inr result => inr (split_char "," result !! 1)
  | inl error => inl error
  end.

Definition geminiModel : string := "gemini-3-flash-preview".

Definition runMerge (w : World File Uint8Array) : World File Uint8Array :=
  if length (files w) <? 2
  then alert "Please upload at least 2 files to merge." w
  else
    try_catch_finally
      (andThen (await (mergePdfs (fd_file <$> files w))) (λ result,
       perform (downloadBlob (inl result)
                  (or_else (outputFilename w) "merged_ok"))))
      (λ e w', alert "Error merging PDFs" (console_error e w'))
      (setLoading false)
      (setLoading true w).

(** [answer] is what [prompt] returns: [None] when it is cancelled. *)
Definition runSplit (answer : option string) (w : World File Uint8Array)
    : World File Uint8Array :=
  match files w with
  | [] => alert "Upload a file first." w
  | f0 :: _ =>
      match answer with
      | None | Some EmptyString => w
      | Some pages =>
          let pageArr := parsePageNumbers pages in
          try_catch_finally
            (andThen (await (splitPdf (fd_file f0) pageArr)) (λ result,
             perform (downloadBlob (inl result)
                        (or_else (outputFilename w) "split_ok"))))
            (λ e w', alert "Error splitting PDF" (console_error e w'))
            (setLoading false)
            (setLoading true w)
      end
  end.

Definition runEdit (answer : option string) (w : World File Uint8Array)
    : World File Uint8Array :=
  match files w with
  | [] => alert "Upload a file first." w
  | f0 :: _ =>
      match answer with
      | None | Some EmptyString => w
      | Some text =>
          try_catch_finally
            (andThen (await (editPdf (fd_file f0) text)) (λ result,
             perform (downloadBlob (inl result)
                        (or_else (outputFilename w) "edited_ok"))))
            console_error
            (setLoading false)
            (setLoading true w)
      end
  end.

Definition runRead (w : World File Uint8Array) : World File Uint8Array :=
  match files w with
  | [] => alert "Upload a file first." w
  | f0 :: _ =>
      match inputText w with
      | EmptyString => w
      | userMsg =>
          try_catch_finally
            (andThen (host newGoogleGenAI) (λ ai,
             andThen (await (extractText (fd_file f0))) (λ pdfText,
             andThen (host (generateContent
               {| req_model := geminiModel;
                  req_contents := PromptContents
                    ("Document Content:" ++ nl ++ pdfText ++ nl ++ nl
                     ++ "User Question: " ++ userMsg)%string;
                  req_systemInstruction := Some
                    "You are OK PDF AI. Help the user with their document."%string
               |})) (λ response,
             perform (setChatHistory (λ prev, prev ++
               [{| role := RoleModel;
                   content := text_or response "No response." |}]))))))
            console_error
            (setLoading false)
            (setChatHistory
               (λ prev, prev ++ [{| role := RoleUser; content := userMsg |}])
               (setInputText EmptyString (setLoading true w)))
      end
  end.

Definition runTranslate (w : World File Uint8Array)
    : World File Uint8Array :=
  match files w with
  | [] => alert "Upload a file first." w
  | f0 :: _ =>
      try_catch_finally
        (andThen (host newGoogleGenAI) (λ ai,
         andThen (await (extractText (fd_file f0))) (λ pdfText,
         andThen (host (generateContent
           {| req_model := geminiModel;
              req_contents := PromptContents
                ("Translate to Hindi:" ++ nl ++ nl
                 ++ substring pdfText 0 10000)%string;
              req_systemInstruction := None |})) (λ response,
         let hindiText := text_or response "Translation failed." in
         andThen (await (createPdfFromText hindiText "Hindi Translation"))
           (λ result,
         perform (downloadBlob (inl result)
                    (or_else (outputFilename w) "hindi_ok")))))))
        console_error
        (setLoading false)
        (setStatus "Translating to Hindi..." (setLoading true w))
  end.

Definition runConvertDoc (w : World File Uint8Array)
    : World File Uint8Array :=
  match files w with
  | [] => alert "Upload a file first." w
  | f0 :: _ =>
      try_catch_finally
        (andThen (host newGoogleGenAI) (λ ai,
         andThen (await (extractText (fd_file f0))) (λ pdfText,
         andThen (host (generateContent
           {| req_model := geminiModel;
              req_contents := PromptContents
                ("Format this text as a professional document:" ++ nl ++ nl
                 ++ pdfText)%string;
              req_systemInstruction := None |})) (λ response,
         let docContent := text_or response EmptyString in
         let blob := {| blobPart := TextPart docContent;
                        blobType := "application/msword" |} in
         perform (downloadBlob (inr blob)
                    (or_else (outputFilename w) "converted_ok" ++ ".doc")%string)))))
        console_error
        (setLoading false)
        (setStatus "Converting to Doc..." (setLoading true w))
  end.

Definition runPhotoToPdf (w : World File Uint8Array)
    : World File Uint8Array :=
  match files w with
  | [] => alert "Upload a photo first." w
  | f0 :: _ =>
      try_catch_finally
        (andThen (host newGoogleGenAI) (λ ai,
         andThen (host (fileToBase64 (fd_file f0))) (λ base64,
         andThen (host (generateContent
           {| req_model := geminiModel;
              req_contents := ImageContents base64 (file_type (fd_file f0))
                "Extract all English text from this image accurately. Return only the text content.";
              req_systemInstruction := None |})) (λ response,
         let extractedText := text_or response "No text found." in
         andThen (await (createPdfFromText extractedText
                           "Photo to PDF Result")) (λ result,
         perform (downloadBlob (inl result)
                    (or_else (outputFilename w) "photo_ok")))))))
        (λ e w', alert "Error during photo conversion." (console_error e w'))
        (setLoading false)
        (setStatus "Extracting text from photo..." (setLoading true w))
  end.

(** The handler of the GENERATE button in each mode. *)
Definition generate (m : ToolMode) (answer : option string)
    : option (World File Uint8Array → World File Uint8Array) :=
  match m with
  | MERGE => Some runMerge
  | SPLIT => Some (runSplit answer)
  | EDIT => Some (runEdit answer)
  | TRANSLATE => Some runTranslate
  | CONVERT_DOC => Some runConvertDoc
  | PHOTO_TO_PDF => Some runPhotoToPdf
  | HOME | READ => None
  end.

(** The blob [downloadBlob] makes of the bytes of a PDF. *)
Definition pdfBlob (bytes : Uint8Array) : Blob Uint8Array :=
  {| blobPart := BytesPart bytes; blobType := "application/pdf" |}.

(** The seven actions of the application; [answer] is what [prompt]
    returns to the two that ask. *)
Definition actions (answer : option string)
    : list (World File Uint8Array → World File Uint8Array) :=
  [runMerge; runSplit answer; runEdit answer; runRead; runTranslate;
   runConvertDoc; runPhotoToPdf].

(** The request [runRead] sends for a document text and a question. *)
Definition readRequest (pdfText userMsg : string) : GenerateRequest :=
  {| req_model := "gemini-3-flash-preview";
     req_contents := PromptContents
       ("Document Content:" ++ nl ++ pdfText ++ nl ++ nl
        ++ "User Question: " ++ userMsg)%string;
     req_systemInstruction := Some
       "You are OK PDF AI. Help the user with their document."%string |}.

(** The request [runTranslate] sends for a document text. *)
Definition translateRequest (pdfText : string) : GenerateRequest :=
  {| req_model := "gemini-3-flash-preview";
     req_contents := PromptContents
       ("Translate to Hindi:" ++ nl ++ nl ++ substring pdfText 0 10000)%string;
     req_systemInstruction := None |}.

(** The request [runConvertDoc] sends for a document text. *)
Definition convertRequest (pdfText : string) : GenerateRequest :=
  {| req_model := "gemini-3-flash-preview";
     req_contents := PromptContents
       ("Format this text as a professional document:" ++ nl ++ nl
        ++ pdfText)%string;
     req_systemInstruction := None |}.

(** The request [runPhotoToPdf] sends for the data and the type of an
    image. *)
Definition photoRequest (base64 : option string) (mimeType : string)
    : GenerateRequest :=
  {| req_model := "gemini-3-flash-preview";
     req_contents := ImageContents base64 mimeType
       "Extract all English text from this image accurately. Return only the text content.";
     req_systemInstruction := None |}.

(** The [disabled] attribute of the GENERATE button:
    [loading || files.length === 0]. *)
Definition generateDisabled (w : World File Uint8Array) : bool :=
  loading w || (length (files w) =? 0).

(** The click on [Back to Dashboard]. *)
Definition backToDashboard (w : World File Uint8Array)
    : World File Uint8Array :=
  setStatus EmptyString
    (setChatHistory (λ _, []) (setFiles (λ _, []) (setMode HOME w))).

Local Close Scope Q_scope.

(** ** Running the primitives *)

Lemma bind_run {A B : Type} (m : M A) (k : A → M B) (st : Store) :
  (m ≫= k) st = match m st with
                | Ok (a, st') => k a st'
                | Throw e => Throw e
                end.
Proof. reflexivity. Qed.

Lemma ret_run {A : Type} (a : A) (st : Store) :
  (mret a : M A) st = Ok (a, st).
Proof. reflexivity. Qed.

Lemma lookup_focus (st rest : Store) (d : PDFDocument) :
  (st ++ d :: rest) !! length st = Some d.
Proof. by apply list_lookup_middle. Qed.

Lemma insert_focus (st rest : Store) (d d' : PDFDocument) :
  <[length st := d']> (st ++ d :: rest) = st ++ d' :: rest.
Proof.
  replace (length st) with (length st + 0) by lia.
  by rewrite insert_app_r.
Qed.

Lemma getDoc_focus st d rest :
  getDoc (length st) (st ++ d :: rest) = Ok (d, st ++ d :: rest).
Proof. unfold getDoc. by rewrite lookup_focus. Qed.

Lemma setDoc_focus st d d' rest :
  setDoc (length st) d' (st ++ d :: rest) = Ok (tt, st ++ d' :: rest).
Proof. unfold setDoc. by rewrite insert_focus. Qed.

Lemma addPage_focus st d rest page :
  addPage (length st) page (st ++ d :: rest) =
  Ok ((length st, length (docPages d)),
      st ++ {| docPages := docPages d ++ [default blankPage page];
               docFonts := docFonts d |} :: rest).
Proof.
  unfold addPage. rewrite bind_run, getDoc_focus.
  rewrite bind_run, setDoc_focus. reflexivity.
Qed.

Lemma embedFont_focus st d rest f :
  embedFont (length st) f (st ++ d :: rest) =
  Ok (f, st ++ {| docPages := docPages d; docFonts := docFonts d ++ [f] |}
            :: rest).
Proof.
  unfold embedFont. rewrite bind_run, getDoc_focus.
  rewrite bind_run, setDoc_focus. reflexivity.
Qed.

Lemma getSize_focus st d rest i pg :
  docPages d !! i = Some pg →
  getSize (length st, i) (st ++ d :: rest) =
  Ok ((pageWidth pg, pageHeight pg), st ++ d :: rest).
Proof.
  intros Hpg. unfold getSize. cbn [fst snd].
  rewrite bind_run, getDoc_focus, Hpg. reflexivity.
Qed.

Lemma drawText_focus st d rest i pg text o :
  docPages d !! i = Some pg →
  canEncode (dt_font o) text = true →
  drawText (length st, i) text o (st ++ d :: rest) =
  Ok (tt, st ++ {| docPages := <[i := drawOn text o pg]> (docPages d);
                   docFonts := docFonts d |} :: rest).
Proof.
  intros Hpg Henc. unfold drawText. cbn [fst snd].
  rewrite bind_run, getDoc_focus, Hpg, Henc. apply setDoc_focus.
Qed.

(** A text the font cannot encode is rejected, and nothing is drawn. *)
Lemma drawText_rejects st d rest i pg text o :
  docPages d !! i = Some pg →
  canEncode (dt_font o) text = false →
  drawText (length st, i) text o (st ++ d :: rest) = Throw EncodingError.
Proof.
  intros Hpg Henc. unfold drawText. cbn [fst snd].
  by rewrite bind_run, getDoc_focus, Hpg, Henc.
Qed.

Lemma getPageCount_focus st d rest :
  getPageCount (length st) (st ++ d :: rest) =
  Ok (Z.of_nat (length (docPages d)), st ++ d :: rest).
Proof. unfold getPageCount. by rewrite bind_run, getDoc_focus. Qed.

(** [save] serializes the document with the default page added when it
    has none, and leaves it so in the store. *)
Lemma save_focus st d rest :
  save (length st) (st ++ d :: rest) =
  Ok (serialize {| docPages := savedPages (docPages d);
                   docFonts := docFonts d |},
      st ++ {| docPages := savedPages (docPages d); docFonts := docFonts d |}
         :: rest).
Proof.
  unfold save. rewrite bind_run, getPageCount_focus.
  destruct d as [[|pg pages] fonts]; cbn [docPages docFonts length savedPages].
  - change (Z.of_nat 0 =? 0)%Z with true. cbv iota.
    rewrite bind_run, bind_run, addPage_focus, ret_run.
    by rewrite bind_run, getDoc_focus.
  - change (Z.of_nat (S (length pages)) =? 0)%Z with false. cbv iota.
    rewrite bind_run, ret_run. by rewrite bind_run, getDoc_focus.
Qed.

Lemma savedPages_nonempty (pages : list PDFPage) :
  pages ≠ [] → savedPages pages = pages.
Proof. by destruct pages. Qed.

Lemma getPageIndices_focus st d rest :
  getPageIndices (length st) (st ++ d :: rest) =
  Ok (map Z.of_nat (seq 0 (length (docPages d))), st ++ d :: rest).
Proof. unfold getPageIndices. by rewrite bind_run, getDoc_focus. Qed.

Lemma getPages_focus st d rest :
  getPages (length st) (st ++ d :: rest) =
  Ok (map (λ i, (length st, i)) (seq 0 (length (docPages d))),
      st ++ d :: rest).
Proof. unfold getPages. by rewrite bind_run, getDoc_focus. Qed.

Lemma copyPages_focus st d rest dst indices ps :
  mapM (pageAt (docPages d)) indices = Some ps →
  copyPages dst (length st) indices (st ++ d :: rest) =
  Ok (ps, st ++ d :: rest).
Proof.
  intros Hps. unfold copyPages.
  by rewrite bind_run, getDoc_focus, Hps.
Qed.

(** Appending the copied pages one by one appends them all, in order. *)
Lemma forEach_addPage st rest ps : ∀ d,
  forEach ps (λ page, addPage (length st) (Some page);; mret tt)
    (st ++ d :: rest) =
  Ok (tt, st ++ {| docPages := docPages d ++ ps; docFonts := docFonts d |}
             :: rest).
Proof.
  unfold forEach. induction ps as [|p ps IH]; intros d; cbn [for_of].
  - rewrite app_nil_r. by destruct d.
  - rewrite bind_run. cbn beta. rewrite bind_run, addPage_focus, ret_run.
    cbn [default]. rewrite IH. cbn [docPages docFonts].
    by rewrite <- app_assoc.
Qed.

(** ** [mergePdfs] *)

Lemma pageAt_of_nat (pages : list PDFPage) (i : nat) :
  pageAt pages (Z.of_nat i) = pages !! i.
Proof.
  unfold pageAt. rewrite Nat2Z.id.
  by destruct (Z.leb_spec 0 (Z.of_nat i)); [|lia].
Qed.

(** Copying a document at its own page indices gives back its pages. *)
Lemma copy_natural_order (pages : list PDFPage) :
  mapM (pageAt pages) (map Z.of_nat (seq 0 (length pages))) = Some pages.
Proof.
  apply mapM_Some_2, Forall2_same_length_lookup. split.
  - by rewrite length_map, length_seq.
  - intros i x pg Hx Hpg. rewrite list_lookup_fmap in Hx.
    destruct (seq 0 (length pages) !! i) as [j|] eqn:Hj; [|done].
    apply lookup_seq in Hj as [-> _]. cbn in Hx. injection Hx as <-.
    by rewrite pageAt_of_nat.
Qed.

Lemma mergePdfs_file_run st m loaded file d :
  parse file = Some d →
  mergePdfs_file (length st) file (st ++ m :: loaded) =
  Ok (tt, st ++ {| docPages := docPages m ++ docPages d;
                   docFonts := docFonts m |} :: loaded ++ [d]).
Proof.
  intros Hd. unfold mergePdfs_file, PDFDocument_load. rewrite Hd.
  rewrite bind_run. unfold alloc.
  change ((st ++ m :: loaded) ++ [d]) with ((st ++ m :: loaded) ++ d :: []).
  rewrite bind_run, getPageIndices_focus.
  rewrite bind_run, (copyPages_focus _ _ _ _ _ _ (copy_natural_order _)).
  rewrite <- app_assoc. cbn [app]. apply forEach_addPage.
Qed.

Lemma mergePdfs_loop st files ds :
  Forall2 (λ file d, parse file = Some d) files ds →
  ∀ m loaded,
  for_of files tt (λ _ file, mergePdfs_file (length st) file)
    (st ++ m :: loaded) =
  Ok (tt, st ++ {| docPages := docPages m ++ concat (docPages <$> ds);
                   docFonts := docFonts m |} :: loaded ++ ds).
Proof.
  induction 1 as [|file d files ds Hd _ IH]; intros m loaded; cbn [for_of].
  - cbn. rewrite !app_nil_r. by destruct m.
  - rewrite bind_run. cbn beta. rewrite (mergePdfs_file_run _ _ _ _ _ Hd).
    rewrite IH. cbn [docPages docFonts fmap list_fmap concat].
    by rewrite <- !app_assoc.
Qed.

Lemma mergePdfs_run files ds st :
  mapM parse files = Some ds →
  mergePdfs files st =
  Ok (serialize {| docPages := savedPages (concat (docPages <$> ds));
                   docFonts := [] |},
      st ++ {| docPages := savedPages (concat (docPages <$> ds));
               docFonts := [] |} :: ds).
Proof.
  intros Hds%mapM_Some_1. unfold mergePdfs, PDFDocument_create, alloc.
  rewrite bind_run, bind_run.
  rewrite (mergePdfs_loop st files ds Hds _ []).
  cbn [docPages docFonts app]. apply save_focus.
Qed.

(** A file that does not parse makes the whole merge fail. *)
Lemma mergePdfs_parse_error files st :
  mapM parse files = None → mergePdfs files st = Throw ParseError.
Proof.
  intros Hnone. unfold mergePdfs, PDFDocument_create, alloc.
  rewrite bind_run, bind_run.
  cut (∀ m loaded,
    for_of files tt (λ _ file, mergePdfs_file (length st) file)
      (st ++ m :: loaded) = Throw ParseError).
  { intros ->. reflexivity. }
  clear -Hnone. induction files as [|file files IH]; intros m loaded.
  - discriminate.
  - cbn [for_of]. rewrite bind_run. cbn beta.
    destruct (parse file) as [d|] eqn:Hd.
    + rewrite (mergePdfs_file_run _ _ _ _ _ Hd). apply IH.
      cbn in Hnone. rewrite Hd in Hnone. cbn in Hnone.
      by destruct (mapM parse files).
    + unfold mergePdfs_file, PDFDocument_load. by rewrite Hd.
Qed.

(** ** [splitPdf] *)

Lemma splitPdf_indices_in_range pageNumbers pageCount :
  Forall (λ i, (0 ≤ i < pageCount)%Z) (splitPdf_indices pageNumbers pageCount).
Proof.
  unfold splitPdf_indices. apply Forall_forall. intros i Hi.
  by apply list_elem_of_filter in Hi as [Hi _].
Qed.

(** Every selected index names a page, so the copy cannot fail. *)
Lemma splitPdf_indices_copy pageNumbers (pages : list PDFPage) :
  ∃ ps,
    mapM (pageAt pages)
      (splitPdf_indices pageNumbers (Z.of_nat (length pages))) = Some ps.
Proof.
  apply mapM_is_Some_2.
  eapply Forall_impl; [apply splitPdf_indices_in_range|].
  intros i [Hlo Hhi]. unfold compose, pageAt.
  destruct (Z.leb_spec 0 i); [|lia].
  apply lookup_lt_is_Some. lia.
Qed.

Lemma splitPdf_run file d pageNumbers ps st :
  parse file = Some d →
  mapM (pageAt (docPages d))
    (splitPdf_indices pageNumbers (Z.of_nat (length (docPages d)))) = Some ps →
  splitPdf file pageNumbers st =
  Ok (serialize {| docPages := savedPages ps; docFonts := [] |},
      st ++ [d; {| docPages := savedPages ps; docFonts := [] |}]).
Proof.
  intros Hd Hps. unfold splitPdf, PDFDocument_load, PDFDocument_create.
  rewrite Hd. unfold alloc. rewrite !bind_run.
  rewrite <- (app_assoc st [d]). cbn [app].
  rewrite getPageCount_focus. cbn zeta.
  rewrite bind_run, (copyPages_focus _ _ _ _ _ _ Hps).
  change (st ++ [d; {| docPages := []; docFonts := [] |}])
    with (st ++ [d] ++ {| docPages := []; docFonts := [] |} :: []).
  rewrite app_assoc, bind_run, forEach_addPage. cbn [docPages docFonts app].
  rewrite save_focus. by rewrite <- app_assoc.
Qed.

Lemma splitPdf_parse_error file pageNumbers st :
  parse file = None → splitPdf file pageNumbers st = Throw ParseError.
Proof. intros Hd. unfold splitPdf, PDFDocument_load. by rewrite Hd. Qed.

(** ** [editPdf] *)

Lemma editPdf_page_run st rest fonts done pg todo text :
  canEncode HelveticaBold text = true →
  editPdf_page HelveticaBold text (length st, length done)
    (st ++ {| docPages := done ++ pg :: todo; docFonts := fonts |} :: rest) =
  Ok (tt, st ++ {| docPages := done ++ overlay text pg :: todo;
                   docFonts := fonts |} :: rest).
Proof.
  intros Henc.
  assert (Hpg : (done ++ pg :: todo) !! length done = Some pg)
    by by apply list_lookup_middle.
  unfold editPdf_page. rewrite bind_run.
  rewrite (getSize_focus _ _ _ _ pg) by done.
  rewrite (drawText_focus _ _ _ _ pg) by done.
  cbn [docPages docFonts]. do 4 f_equal.
  replace (length done) with (length done + 0) by lia.
  by rewrite insert_app_r.
Qed.

Lemma editPdf_page_rejects st rest fonts done pg todo text :
  canEncode HelveticaBold text = false →
  editPdf_page HelveticaBold text (length st, length done)
    (st ++ {| docPages := done ++ pg :: todo; docFonts := fonts |} :: rest) =
  Throw EncodingError.
Proof.
  intros Henc.
  assert (Hpg : (done ++ pg :: todo) !! length done = Some pg)
    by by apply list_lookup_middle.
  unfold editPdf_page. rewrite bind_run.
  rewrite (getSize_focus _ _ _ _ pg) by done.
  by rewrite (drawText_rejects _ _ _ _ pg).
Qed.

Lemma editPdf_loop st rest fonts text todo : ∀ done,
  canEncode HelveticaBold text = true ∨ todo = [] →
  for_of (map (λ i, (length st, i)) (seq (length done) (length todo))) tt
    (λ _ page, editPdf_page HelveticaBold text page)
    (st ++ {| docPages := done ++ todo; docFonts := fonts |} :: rest) =
  Ok (tt, st ++ {| docPages := done ++ map (overlay text) todo;
                   docFonts := fonts |} :: rest).
Proof.
  induction todo as [|pg todo IH]; intros done Henc;
    cbn [length seq map for_of].
  - reflexivity.
  - destruct Henc as [Henc|]; [|done].
    rewrite bind_run. cbn beta. rewrite editPdf_page_run by done.
    specialize (IH (done ++ [overlay text pg]) (or_introl Henc)).
    rewrite length_app, Nat.add_1_r, <- !app_assoc in IH. apply IH.
Qed.

(** [editPdf] on a file that parses, when the bold font can encode the
    text or there is no page to draw on. *)
Lemma editPdf_run file d text st :
  parse file = Some d →
  canEncode HelveticaBold text = true ∨ docPages d = [] →
  editPdf file text st =
  Ok (serialize {| docPages := savedPages (map (overlay text) (docPages d));
                   docFonts := docFonts d ++ [HelveticaBold] |},
      st ++ [{| docPages := savedPages (map (overlay text) (docPages d));
                docFonts := docFonts d ++ [HelveticaBold] |}]).
Proof.
  intros Hd Henc. unfold editPdf, PDFDocument_load. rewrite Hd. unfold alloc.
  rewrite bind_run, bind_run, embedFont_focus.
  rewrite bind_run, getPages_focus. cbn [docPages].
  rewrite bind_run.
  rewrite (editPdf_loop st [] _ text (docPages d) []) by done.
  cbn [app]. apply save_focus.
Qed.

(** [editPdf] on a file that parses and has a page, when the bold font
    cannot encode the text: the first [drawText] throws. *)
Lemma editPdf_encoding_error file d text st :
  parse file = Some d →
  docPages d ≠ [] →
  canEncode HelveticaBold text = false →
  editPdf file text st = Throw EncodingError.
Proof.
  intros Hd Hpages Henc. unfold editPdf, PDFDocument_load. rewrite Hd.
  unfold alloc. rewrite bind_run, bind_run, embedFont_focus.
  rewrite bind_run, getPages_focus. cbn [docPages].
  destruct (docPages d) as [|pg todo]; [done|].
  rewrite bind_run. cbn [length seq map for_of]. rewrite bind_run.
  cbn beta.
  by rewrite (editPdf_page_rejects st [] _ [] pg todo).
Qed.

Lemma editPdf_parse_error file text st :
  parse file = None → editPdf file text st = Throw ParseError.
Proof. intros Hd. unfold editPdf, PDFDocument_load. by rewrite Hd. Qed.

(** The three ways [editPdf] can end. *)
Lemma editPdf_cases file text st :
  editPdf file text st =
  match parse file with
  | Some d =>
      if canEncode HelveticaBold text || (length (docPages d) =? 0)
      then Ok (serialize
                 {| docPages := savedPages (map (overlay text) (docPages d));
                    docFonts := docFonts d ++ [HelveticaBold] |},
               st ++ [{| docPages :=
                           savedPages (map (overlay text) (docPages d));
                         docFonts := docFonts d ++ [HelveticaBold] |}])
      else Throw EncodingError
  | None => Throw ParseError
  end.
Proof.
  destruct (parse file) as [d|] eqn:Hd; [|by apply editPdf_parse_error].
  destruct (canEncode HelveticaBold text) eqn:Henc; cbn [orb].
  - apply editPdf_run; [done|by left].
  - destruct (docPages d) as [|pg todo] eqn:Hpages; cbn [length Nat.eqb].
    + rewrite <- Hpages. apply editPdf_run; [done|by right].
    + by apply (editPdf_encoding_error file d); [|rewrite Hpages|].
Qed.

(** ** [createPdfFromText] *)

Lemma Qlt_bool_true (a b : Q) : Qlt_bool a b = true ↔ (a < b)%Q.
Proof.
  unfold Qlt_bool. rewrite negb_true_iff, <- not_true_iff_false, Qle_bool_iff.
  split; [apply Qnot_le_lt | apply Qlt_not_le].
Qed.

Lemma Qlt_bool_false (a b : Q) : Qlt_bool a b = false ↔ (b <= a)%Q.
Proof. unfold Qlt_bool. by rewrite negb_false_iff, Qle_bool_iff. Qed.

Lemma insert_as_alter {A : Type} (f : A → A) (l : list A) (i : nat) (x : A) :
  l !! i = Some x → <[i := f x]> l = alter f i l.
Proof.
  revert i. induction l as [|a l IH]; intros [|i] Hx; try done.
  - cbn in Hx. by injection Hx as ->.
  - cbn in *. f_equal. by apply IH.
Qed.

Lemma createPdfFromText_line_run st rest fonts pages idx y line :
  idx < length pages →
  canEncode Helvetica (substring line 0 100) = true →
  createPdfFromText_line (length st) Helvetica defaultHeight
    ((length st, idx), y) line
    (st ++ {| docPages := pages; docFonts := fonts |} :: rest) =
  Ok (((length st, (layoutStep (pages, idx, y) line).1.2),
       (layoutStep (pages, idx, y) line).2),
      st ++ {| docPages := (layoutStep (pages, idx, y) line).1.1;
               docFonts := fonts |} :: rest).
Proof.
  intros Hidx Henc. unfold createPdfFromText_line, layoutStep. cbn zeta.
  rewrite bind_run. destruct (Qlt_bool y (50 + 20)).
  - rewrite bind_run, addPage_focus, ret_run. cbn [default docPages docFonts].
    rewrite bind_run.
    rewrite (drawText_focus _ _ _ _ blankPage)
      by (done || by apply list_lookup_middle).
    rewrite ret_run. cbn [docPages docFonts fst snd].
    by rewrite (insert_as_alter (drawOn _ _) _ _ blankPage)
      by by apply list_lookup_middle.
  - rewrite ret_run. apply lookup_lt_is_Some in Hidx as [pg Hpg].
    rewrite bind_run, (drawText_focus _ _ _ _ pg) by done.
    rewrite ret_run. cbn [docPages docFonts fst snd].
    by rewrite (insert_as_alter (drawOn _ _) _ _ pg).
Qed.

(** A line whose first 100 characters Helvetica cannot encode stops the
    loop, after the page break when one was due. *)
Lemma createPdfFromText_line_rejects st rest fonts pages idx y line :
  idx < length pages →
  canEncode Helvetica (substring line 0 100) = false →
  createPdfFromText_line (length st) Helvetica defaultHeight
    ((length st, idx), y) line
    (st ++ {| docPages := pages; docFonts := fonts |} :: rest) =
  Throw EncodingError.
Proof.
  intros Hidx Henc. unfold createPdfFromText_line. cbn zeta.
  rewrite bind_run. destruct (Qlt_bool y (50 + 20)).
  - rewrite bind_run, addPage_focus, ret_run. cbn [default docPages docFonts].
    rewrite bind_run.
    by rewrite (drawText_rejects _ _ _ _ blankPage)
      by (done || by apply list_lookup_middle).
  - rewrite ret_run. apply lookup_lt_is_Some in Hidx as [pg Hpg].
    by rewrite bind_run, (drawText_rejects _ _ _ _ pg).
Qed.

(** One iteration: where the line is drawn, and whether a page was added. *)
Lemma layoutStep_spec pages idx y line :
  length pages = S idx →
  ∃ pages' idx' ydraw,
    layoutStep (pages, idx, y) line = (pages', idx', (ydraw - (12 + 5))%Q)
    ∧ length pages' = S idx'
    ∧ drawnOps pages' =
        drawnOps pages ++ [(substring line 0 100, lineOptions ydraw)]
    ∧ (((y < 50 + 20)%Q ∧ ydraw = (defaultHeight - 50)%Q
        ∧ length pages' = S (length pages))
       ∨ ((50 + 20 <= y)%Q ∧ ydraw = y ∧ length pages' = length pages)).
Proof.
  intros Hlen. unfold layoutStep.
  assert (Hsnoc : ∀ (l : list PDFPage) pg t o,
    drawnOps (alter (drawOn t o) (length l) (l ++ [pg])) =
    drawnOps (l ++ [pg]) ++ [(t, o)]).
  { intros l pg t o. replace (length l) with (length l + 0) by lia.
    rewrite alter_app_r. unfold drawnOps. rewrite !fmap_app, !concat_app.
    cbn. by rewrite !app_nil_r, app_assoc. }
  destruct (Qlt_bool y (50 + 20)) eqn:Hy.
  - eexists _, _, _. split; [reflexivity|].
    split; [by rewrite length_alter, length_app, Nat.add_1_r|].
    split.
    + rewrite Hsnoc. unfold drawnOps at 1.
      rewrite fmap_app, concat_app. cbn. by rewrite app_nil_r.
    + left. apply Qlt_bool_true in Hy.
      by rewrite length_alter, length_app, Nat.add_1_r.
  - eexists _, _, _. split; [reflexivity|].
    split; [by rewrite length_alter|].
    split.
    + destruct pages as [|pg l _] using rev_ind; [done|].
      rewrite length_app, Nat.add_1_r in Hlen. injection Hlen as <-.
      apply Hsnoc.
    + right. apply Qlt_bool_false in Hy. by rewrite length_alter.
Qed.

Lemma layoutStep_valid pages idx y line :
  idx < length pages →
  (layoutStep (pages, idx, y) line).1.2
    < length (layoutStep (pages, idx, y) line).1.1.
Proof.
  intros Hidx. unfold layoutStep. destruct (Qlt_bool y (50 + 20)); cbn.
  - rewrite length_alter, length_app. cbn. lia.
  - by rewrite length_alter.
Qed.

Lemma createPdfFromText_loop st rest fonts lines : ∀ pages idx y,
  idx < length pages →
  linesEncodable lines = true →
  for_of lines ((length st, idx), y)
    (createPdfFromText_line (length st) Helvetica defaultHeight)
    (st ++ {| docPages := pages; docFonts := fonts |} :: rest) =
  Ok (((length st, (fold_left layoutStep lines (pages, idx, y)).1.2),
       (fold_left layoutStep lines (pages, idx, y)).2),
      st ++ {| docPages := (fold_left layoutStep lines (pages, idx, y)).1.1;
               docFonts := fonts |} :: rest).
Proof.
  induction lines as [|line lines IH]; intros pages idx y Hidx Henc.
  - reflexivity.
  - cbn [linesEncodable forallb] in Henc.
    apply andb_true_iff in Henc as [Hline Hlines].
    cbn [for_of fold_left]. rewrite bind_run.
    rewrite createPdfFromText_line_run by done.
    pose proof (layoutStep_valid pages idx y line Hidx) as Hvalid.
    destruct (layoutStep (pages, idx, y) line) as [[pages' idx'] y'].
    cbn [fst snd] in *. by apply IH.
Qed.

Lemma createPdfFromText_loop_rejects st rest fonts lines : ∀ pages idx y,
  idx < length pages →
  linesEncodable lines = false →
  for_of lines ((length st, idx), y)
    (createPdfFromText_line (length st) Helvetica defaultHeight)
    (st ++ {| docPages := pages; docFonts := fonts |} :: rest) =
  Throw EncodingError.
Proof.
  induction lines as [|line lines IH]; intros pages idx y Hidx Henc.
  - discriminate.
  - cbn [linesEncodable forallb] in Henc. cbn [for_of]. rewrite bind_run.
    destruct (canEncode Helvetica (substring line 0 100)) eqn:Hline.
    + rewrite createPdfFromText_line_run by done.
      pose proof (layoutStep_valid pages idx y line Hidx) as Hvalid.
      destruct (layoutStep (pages, idx, y) line) as [[pages' idx'] y'].
      cbn [fst snd] in *. by apply IH.
    + by rewrite createPdfFromText_line_rejects.
Qed.

(** *** The pure loop *)

Ltac layout_step Hlen :=
  let pages' := fresh "pages'" in
  let idx' := fresh "idx'" in
  let yd := fresh "yd" in
  let Hstep := fresh "Hstep" in
  let Hlen' := fresh "Hlen'" in
  let Hdrawn := fresh "Hdrawn" in
  let Hcase := fresh "Hcase" in
  cbn [fold_left];
  match goal with
  | |- context [layoutStep (?pages, ?idx, ?y) ?line] =>
      destruct (layoutStep_spec pages idx y line Hlen)
        as (pages' & idx' & yd & Hstep & Hlen' & Hdrawn & Hcase);
      rewrite Hstep
  end.

(** Pages are only ever added. *)
Lemma layout_fold_length lines : ∀ pages idx y,
  length pages = S idx →
  length pages ≤ length (fold_left layoutStep lines (pages, idx, y)).1.1.
Proof.
  induction lines as [|line lines IH]; intros pages idx y Hlen; [done|].
  layout_step Hlen. etrans; [|by apply IH].
  destruct Hcase as [(_ & _ & ->)|(_ & _ & ->)]; lia.
Qed.

(** Every line adds exactly one text operation: its first 100 characters. *)
Lemma layout_fold_texts lines : ∀ pages idx y,
  length pages = S idx →
  (drawnOps (fold_left layoutStep lines (pages, idx, y)).1.1).*1 =
  (drawnOps pages).*1 ++ ((λ line, substring line 0 100) <$> lines).
Proof.
  induction lines as [|line lines IH]; intros pages idx y Hlen.
  - cbn. by rewrite app_nil_r.
  - layout_step Hlen. rewrite IH by done. rewrite Hdrawn, fmap_app.
    cbn. by rewrite <- app_assoc.
Qed.

Lemma layout_fold_options lines : ∀ pages idx y,
  length pages = S idx →
  Forall (λ op, lineDrawn op.2) (drawnOps pages) →
  Forall (λ op, lineDrawn op.2)
    (drawnOps (fold_left layoutStep lines (pages, idx, y)).1.1).
Proof.
  induction lines as [|line lines IH]; intros pages idx y Hlen Hall; [done|].
  layout_step Hlen. apply IH; [done|]. rewrite Hdrawn.
  apply Forall_app. split; [done|]. apply Forall_singleton. exists yd.
  split; [done|].
  destruct Hcase as [(_ & -> & _)|(Hy & -> & _)]; [by right | by left].
Qed.



(** The layout always has a page, so [save] adds none. *)
Lemma layout_savedPages lines :
  savedPages (layout lines).1.1 = (layout lines).1.1.
Proof.
  apply savedPages_nonempty. intros Hnone.
  pose proof (layout_fold_length lines [blankPage] 0 (defaultHeight - 50)%Q
                eq_refl) as Hlen.
  unfold layout in Hnone. rewrite Hnone in Hlen. cbn in Hlen. lia.
Qed.

(** [createPdfFromText] resolves exactly when Helvetica can encode the
    first 100 characters of every line. *)
Lemma createPdfFromText_cases text title st :
  createPdfFromText text title st =
  if linesEncodable (split_lines text)
  then Ok (serialize {| docPages := (layout (split_lines text)).1.1;
                        docFonts := [Helvetica] |},
           st ++ [{| docPages := (layout (split_lines text)).1.1;
                     docFonts := [Helvetica] |}])
  else Throw EncodingError.
Proof.
  unfold createPdfFromText, PDFDocument_create, alloc.
  rewrite bind_run, bind_run, embedFont_focus.
  rewrite bind_run, addPage_focus. cbn [default docPages docFonts app].
  rewrite bind_run, (getSize_focus _ _ _ _ blankPage) by done.
  cbn [pageHeight pageWidth blankPage]. cbn zeta.
  rewrite bind_run.
  destruct (linesEncodable (split_lines text)) eqn:Henc.
  - rewrite createPdfFromText_loop by (done || cbn; lia).
    rewrite save_focus. cbn [docPages docFonts].
    change (fold_left layoutStep (split_lines text) _)
      with (layout (split_lines text)).
    by rewrite layout_savedPages.
  - by rewrite createPdfFromText_loop_rejects by (done || cbn; lia).
Qed.

Lemma createPdfFromText_run text title st :
  linesEncodable (split_lines text) = true →
  createPdfFromText text title st =
  Ok (serialize {| docPages := (layout (split_lines text)).1.1;
                   docFonts := [Helvetica] |},
      st ++ [{| docPages := (layout (split_lines text)).1.1;
                docFonts := [Helvetica] |}]).
Proof. intros Henc. by rewrite createPdfFromText_cases, Henc. Qed.

Lemma createPdfFromText_encoding_error text title st :
  linesEncodable (split_lines text) = false →
  createPdfFromText text title st = Throw EncodingError.
Proof. intros Henc. by rewrite createPdfFromText_cases, Henc. Qed.

Lemma split_lines_nonempty text : 0 < length (split_lines text).
Proof.
  induction text as [|c text IH]; cbn; [lia|].
  destruct (Ascii.eqb c newline); cbn; [lia|].
  destruct (split_lines text); cbn in *; lia.
Qed.

(** [pageCapacity] is the least number of lines after which the cursor is
    under the threshold. *)
Lemma pageCapacity_overflow :
  (defaultHeight - 50 - 17 * inject_Z (Z.of_nat (pageCapacity defaultHeight))
     < 50 + 20)%Q.
Proof.
  unfold pageCapacity. set (x := ((defaultHeight - 120) / 17)%Q).
  assert (x < inject_Z (Z.of_nat (Z.to_nat (Qfloor x + 1))))%Q as Hx.
  { eapply Qlt_le_trans; [apply Qlt_floor|]. rewrite <- Zle_Qle. lia. }
  assert (x * 17 == defaultHeight - 120)%Q as Hx17
    by (unfold x; field).
  lra.
Qed.

Lemma pageCapacity_fits (n : nat) :
  0 < n → n ≤ pageCapacity defaultHeight →
  (17 * inject_Z (Z.of_nat n) <= defaultHeight - 50 - 53)%Q.
Proof.
  unfold pageCapacity. set (x := ((defaultHeight - 120) / 17)%Q).
  intros Hpos Hn.
  assert (inject_Z (Z.of_nat n) <= inject_Z (Qfloor x + 1))%Q as Hle.
  { rewrite <- Zle_Qle. lia. }
  rewrite inject_Z_plus in Hle. change (inject_Z 1) with 1%Q in Hle.
  pose proof (Qfloor_le x) as Hfl.
  assert (x * 17 == defaultHeight - 120)%Q as Hx17
    by (unfold x; field).
  lra.
Qed.


(** ** [extractText] *)

Lemma append_assoc (a b c : string) : ((a ++ b) ++ c = a ++ (b ++ c))%string.
Proof. induction a as [|x a IH]; cbn; [done|by rewrite IH]. Qed.

Lemma append_nil_r (a : string) : (a ++ EmptyString)%string = a.
Proof. induction a as [|x a IH]; cbn; [done|by rewrite IH]. Qed.

Lemma extractText_loop pdf st todo : ∀ done fullText,
  pdf = done ++ todo →
  for_of (seq (S (length done)) (length todo)) fullText
    (λ fullText i,
       items ← getTextItems pdf i;
       let pageText := join " " items in
       mret (fullText ++ pageBlock i pageText)%string) st =
  Ok ((fullText ++
       foldr String.append EmptyString
         (pageBlocksFrom (S (length done)) todo))%string,
      st).
Proof.
  induction todo as [|items todo IH]; intros done fullText Hpdf.
  - cbn. by rewrite append_nil_r.
  - cbn [length seq for_of pageBlocksFrom foldr]. rewrite bind_run.
    assert (pdf !! length done = Some items) as Hitems
      by (subst pdf; by apply list_lookup_middle).
    cbn beta. rewrite bind_run. cbn [getTextItems]. rewrite Hitems.
    rewrite ret_run. cbn zeta. rewrite ret_run.
    specialize (IH (done ++ [items])).
    rewrite length_app, Nat.add_1_r in IH.
    rewrite IH by (by rewrite <- app_assoc). by rewrite append_assoc.
Qed.

Lemma extractText_run file pdf st :
  readItems file = Some pdf →
  extractText file st =
  Ok (foldr String.append EmptyString (pageBlocksFrom 1 pdf), st).
Proof.
  intros Hpdf. unfold extractText, getDocument. rewrite Hpdf.
  rewrite bind_run, ret_run.
  exact (extractText_loop pdf st pdf [] EmptyString eq_refl).
Qed.

Lemma pageBlocksFrom_length pdf : ∀ i,
  length (pageBlocksFrom i pdf) = length pdf.
Proof.
  induction pdf as [|items pdf IH]; intros i; cbn; [done|by rewrite IH].
Qed.

Lemma pageBlocksFrom_lookup pdf : ∀ i k items,
  pdf !! k = Some items →
  pageBlocksFrom i pdf !! k = Some (pageBlock (i + k) (join " " items)).
Proof.
  induction pdf as [|x pdf IH]; intros i [|k] items Hk; try done.
  - cbn in *. injection Hk as ->. by rewrite Nat.add_0_r.
  - replace (i + S k) with (S i + k) by lia. exact (IH (S i) k items Hk).
Qed.

(** *** Counting delimiter lines *)

Lemma prefix_before_newline m : ∀ a b,
  contains_char newline m = false →
  String.prefix m (a ++ String newline b) = String.prefix m a.
Proof.
  induction m as [|c m IH]; intros a b Hm; [by destruct a|].
  cbn in Hm. apply orb_false_iff in Hm as [Hc Hm].
  destruct a as [|x a]; cbn.
  - destruct (ascii_dec c newline) as [->|]; [|done].
    by rewrite Ascii.eqb_refl in Hc.
  - destruct (ascii_dec c x); [by apply IH|done].
Qed.

Lemma occurrences_newline m a b :
  contains_char newline m = false →
  occurrences m (a ++ String newline b) = occurrences m a + occurrences m b.
Proof.
  intros Hm. induction a as [|x a IH].
  - pose proof (prefix_before_newline m EmptyString b Hm) as Hp.
    cbn [String.append] in *. cbn [occurrences]. rewrite Hp. lia.
  - pose proof (prefix_before_newline m (String x a) b Hm) as Hp.
    cbn [String.append] in *. cbn [occurrences]. rewrite Hp, IH. lia.
Qed.

Lemma occurrences_digits (u : Decimal.uint) (rest : string) :
  occurrences pageMarker (NilEmpty.string_of_uint u ++ rest) =
  occurrences pageMarker rest.
Proof. induction u; cbn; done. Qed.

Lemma occurrences_delimiter (i : nat) :
  occurrences pageMarker ("--- Page " ++ toString i ++ " ---")%string = 1.
Proof.
  unfold toString. cbn. rewrite occurrences_digits.
  by destruct (NilEmpty.string_of_uint (Nat.to_uint i) ++ " ---")%string.
Qed.

Lemma occurrences_block i pageText rest :
  occurrences pageMarker (pageBlock i pageText ++ rest) =
  1 + occurrences pageMarker pageText + occurrences pageMarker rest.
Proof.
  unfold pageBlock, nl.
  replace (("--- Page " ++ toString i ++ " ---"
             ++ String newline EmptyString ++ pageText
             ++ String newline EmptyString ++ String newline EmptyString)
            ++ rest)%string
    with (("--- Page " ++ toString i ++ " ---") ++
          String newline (pageText ++
            String newline (EmptyString ++ String newline rest)))%string.
  - rewrite !occurrences_newline by done.
    rewrite occurrences_delimiter. cbn. lia.
  - rewrite !append_assoc. reflexivity.
Qed.

Lemma occurrences_blocks pdf : ∀ i,
  occurrences pageMarker
    (foldr String.append EmptyString (pageBlocksFrom i pdf)) =
  length pdf +
  sum_list ((λ items, occurrences pageMarker (join " " items)) <$> pdf).
Proof.
  induction pdf as [|items pdf IH]; intros i; [done|].
  cbn [pageBlocksFrom foldr]. rewrite occurrences_block, IH. cbn. lia.
Qed.

(** ** The properties of the specification *)

(** C1: the page selection of [splitPdf] returns exactly the values [n - 1]
    for the entries [n] of the request with [1 <= n <= pageCount], in the
    caller's order and with their duplicates; no selected index is below 0
    or at or above the page count; out-of-range entries are dropped and the
    copy of the selected pages cannot fail, so [splitPdf] throws only when
    the file does not parse, and otherwise saves the selected pages (the
    default page of [save] when none is selected); selecting [1,3,1] from
    5 pages gives [0,2,0]. *)
Theorem splitPdf_selects_valid_pages :
  (∀ (r : list Z) (p : Z),
     splitPdf_indices r p =
       (λ n, (n - 1)%Z) <$> filter (λ n, (1 ≤ n)%Z ∧ (n ≤ p)%Z) r
     ∧ Forall (λ i, (0 ≤ i)%Z ∧ (i < p)%Z) (splitPdf_indices r p))
  ∧ (∀ file (r : list Z) st,
       match parse file with
       | Some d =>
           ∃ ps,
             Forall2 (λ i pg, pageAt (docPages d) i = Some pg)
               (splitPdf_indices r (Z.of_nat (length (docPages d)))) ps
             ∧ splitPdf file r st =
               Ok (serialize {| docPages := savedPages ps; docFonts := [] |},
                   st ++ [d; {| docPages := savedPages ps; docFonts := [] |}])
       | None => splitPdf file r st = Throw ParseError
       end)
  ∧ splitPdf_indices [1; 3; 1]%Z 5 = [0; 2; 0]%Z.
Proof.
  split; [|split; [|reflexivity]].
  - intros r p. split; [|apply splitPdf_indices_in_range].
    unfold splitPdf_indices. induction r as [|n r IH]; [done|].
    cbn [map]. rewrite !filter_cons, IH.
    destruct (decide ((0 ≤ n - 1)%Z ∧ (n - 1 < p)%Z)) as [Hin|Hout];
      destruct (decide ((1 ≤ n)%Z ∧ (n ≤ p)%Z)) as [Hin'|Hout'];
      try done; exfalso; lia.
  - intros file r st. destruct (parse file) as [d|] eqn:Hd.
    + destruct (splitPdf_indices_copy r (docPages d)) as [ps Hps].
      exists ps. split; [by apply mapM_Some_1|by apply splitPdf_run].
    + by apply splitPdf_parse_error.
Qed.

(** C2, as the code has it: when every source parses and the sources have
    a page between them, the document [mergePdfs] saves has as its pages
    the pages of the first source in their order, then those of the
    second, and so on; when the sources have no page at all it has one
    page, the default page of [save]; merging a single document that has
    a page gives a document with the same pages, hence the same page
    count, as that document. *)
Theorem mergePdfs_concatenates files ds st :
  mapM parse files = Some ds →
  ∃ out,
    mergePdfs files st = Ok (serialize out, st ++ out :: ds)
    ∧ (concat (docPages <$> ds) ≠ [] →
       docPages out = concat (docPages <$> ds))
    ∧ (concat (docPages <$> ds) = [] → docPages out = [blankPage])
    ∧ (∀ d, ds = [d] → docPages d ≠ [] →
         docPages out = docPages d
         ∧ length (docPages out) = length (docPages d)).
Proof.
  intros Hds. eexists. split; [by apply mergePdfs_run|]. cbn [docPages].
  split; [apply savedPages_nonempty|]. split; [by intros ->|].
  intros d -> Hd. cbn. rewrite app_nil_r. by rewrite savedPages_nonempty.
Qed.



(** C7, as the code has it: [mergePdfs] and [splitPdf] build a new
    document and leave every loaded source exactly as it was parsed;
    [editPdf], when the bold font can encode the text, creates no
    document: it embeds its font in the loaded document, draws on the
    pages of the loaded document and saves that same document, with the
    default page of [save] when it has none.  No operation touches a
    document that was in the store before it ran. *)
Theorem loaded_documents_after_operations files ds file d r overlayText st :
  mapM parse files = Some ds →
  parse file = Some d →
  canEncode HelveticaBold overlayText = true →
  (∃ out, mergePdfs files st = Ok (serialize out, st ++ out :: ds))
  ∧ (∃ out, splitPdf file r st = Ok (serialize out, st ++ [d; out]))
  ∧ (∃ out,
       editPdf file overlayText st = Ok (serialize out, st ++ [out])
       ∧ docPages out = savedPages (overlay overlayText <$> docPages d)
       ∧ docFonts out = docFonts d ++ [HelveticaBold]).
Proof.
  intros Hds Hd Henc. split; [|split].
  - eexists. by apply mergePdfs_run.
  - destruct (splitPdf_indices_copy r (docPages d)) as [ps Hps].
    eexists. by apply splitPdf_run.
  - eexists. split; [apply (editPdf_run file d); [done|by left]|done].
Qed.

Lemma string_take_min n : ∀ s,
  string_take (Nat.min n (String.length s)) s = string_take n s.
Proof.
  induction n as [|n IH]; intros [|c s]; cbn; try done. by rewrite IH.
Qed.

Lemma substring_from_start s n : substring s 0 n = string_take n s.
Proof.
  unfold substring. cbn [Nat.min Nat.max string_drop].
  rewrite Nat.sub_0_r. apply string_take_min.
Qed.

Lemma string_take_length n : ∀ s,
  String.length (string_take n s) = Nat.min n (String.length s).
Proof.
  induction n as [|n IH]; intros [|c s]; cbn; try done. by rewrite IH.
Qed.


Lemma blankPage_lineDrawn :
  Forall (λ op, lineDrawn op.2) (drawnOps [blankPage]).
Proof. by apply Forall_nil. Qed.




(** What the saved layout holds: one operation per line, its first 100
    characters, drawn at [x = 50]. *)
Lemma layout_texts lines :
  (drawnOps (layout lines).1.1).*1 = (λ line, substring line 0 100) <$> lines
  ∧ Forall (λ op, dt_x op.2 = 50%Q) (drawnOps (layout lines).1.1).
Proof.
  unfold layout. split.
  - by rewrite layout_fold_texts.
  - eapply Forall_impl.
    + apply layout_fold_options; [done|apply blankPage_lineDrawn].
    + by intros [t o] (y & -> & _).
Qed.



(** C9: the title takes no part in [createPdfFromText]: two calls that
    differ only in the title end alike, with the same bytes and the same
    store or with the same error; when they resolve, the texts drawn are
    those of the lines alone. *)
Theorem createPdfFromText_ignores_title text t1 t2 st :
  createPdfFromText text t1 st = createPdfFromText text t2 st
  ∧ if linesEncodable (split_lines text)
    then
      ∃ out,
        createPdfFromText text t1 st = Ok (serialize out, st ++ [out])
        ∧ createPdfFromText text t2 st = Ok (serialize out, st ++ [out])
        ∧ (drawnOps (docPages out)).*1 =
            (λ line, substring line 0 100) <$> split_lines text
    else
      createPdfFromText text t1 st = Throw EncodingError
      ∧ createPdfFromText text t2 st = Throw EncodingError.
Proof.
  split; [by rewrite !createPdfFromText_cases|].
  rewrite !createPdfFromText_cases.
  destruct (linesEncodable (split_lines text)); [|done].
  eexists. split; [done|]. split; [done|]. apply layout_texts.
Qed.


(** C4, as the code has it: when the file parses, [extractText] returns
    the blocks of the pages in page order, the block of page [n] being
    the line [--- Page n ---], the fragments of the page joined with single
    spaces, and a blank line; the delimiter text occurs once per page plus
    as often as the pages' own text contains it, hence exactly once per
    page when no page's text contains it. *)
Theorem extractText_blocks file pdf st :
  readItems file = Some pdf →
  ∃ fullText,
    extractText file st = Ok (fullText, st)
    ∧ fullText = foldr String.append EmptyString (pageBlocksFrom 1 pdf)
    ∧ length (pageBlocksFrom 1 pdf) = length pdf
    ∧ (∀ k items, pdf !! k = Some items →
         pageBlocksFrom 1 pdf !! k =
         Some ("--- Page " ++ toString (S k) ++ " ---" ++ nl
               ++ join " " items ++ nl ++ nl)%string)
    ∧ occurrences pageMarker fullText =
        length pdf +
        sum_list ((λ items, occurrences pageMarker (join " " items)) <$> pdf)
    ∧ (Forall (λ items, occurrences pageMarker (join " " items) = 0) pdf →
       occurrences pageMarker fullText = length pdf).
Proof.
  intros Hpdf. eexists. split; [by apply extractText_run|].
  split; [done|]. split; [apply pageBlocksFrom_length|].
  split; [intros k items Hk; by rewrite (pageBlocksFrom_lookup _ 1 k items)|].
  split; [apply occurrences_blocks|].
  intros Hclean. rewrite occurrences_blocks.
  assert (sum_list ((λ items, occurrences pageMarker (join " " items)) <$> pdf) = 0)
    as ->; [|lia].
  clear Hpdf. induction Hclean as [|items pdf' Hz _ IH]; [done|].
  cbn. by rewrite Hz, IH.
Qed.

(** ** Further properties of the service *)

Lemma mapM_parse_None files :
  mapM parse files = None ↔ ∃ file, file ∈ files ∧ parse file = None.
Proof.
  rewrite eq_None_not_Some, mapM_is_Some, <- Exists_Forall_neg, Exists_exists
    by (intros file; unfold compose; destruct (parse file); [left|right];
        [done|by intros [? [=]]]).
  split; intros (file & Hin & Hfile); exists file; (split; [done|]).
  - unfold compose in Hfile. by apply eq_None_not_Some.
  - unfold compose. by apply eq_None_not_Some.
Qed.

(** X1: [mergePdfs] rejects exactly when one of the files does not parse,
    always with the parse error, and resolves exactly when all of them
    parse: a merge never leaves out a file. *)
Theorem mergePdfs_fails_iff_unparseable files st :
  (mergePdfs files st = Throw ParseError
   ↔ ∃ file, file ∈ files ∧ parse file = None)
  ∧ ((∃ r, mergePdfs files st = Ok r)
     ↔ Forall (λ file, is_Some (parse file)) files)
  ∧ (∀ e, mergePdfs files st = Throw e → e = ParseError).
Proof.
  destruct (mapM parse files) as [ds|] eqn:Hds.
  - pose proof (mergePdfs_run files ds st Hds) as Hrun.
    assert (Forall (λ file, is_Some (parse file)) files) as Hall.
    { apply (mapM_is_Some_1 parse). by rewrite Hds. }
    split; [|split].
    + split; [by rewrite Hrun|].
      intros Hex%mapM_parse_None. congruence.
    + split; [done|]. intros _. eexists. exact Hrun.
    + intros e. by rewrite Hrun.
  - pose proof (mergePdfs_parse_error files st Hds) as Hrun.
    split; [|split].
    + split; [intros _; by apply mapM_parse_None|done].
    + split; [intros [r Hr]; congruence|].
      intros Hall%(mapM_is_Some_2 parse). rewrite Hds in Hall.
      by destruct Hall.
    + intros e. rewrite Hrun. by intros [= <-].
Qed.

Lemma extractText_parse_error file st :
  readItems file = None → extractText file st = Throw ParseError.
Proof. intros Hd. unfold extractText, getDocument. by rewrite Hd. Qed.

(** X2: [splitPdf] and [extractText] reject exactly when the file does
    not parse, with the parse error, whatever the page numbers.
    [editPdf] rejects with the parse error exactly when the file does not
    parse, and with the encoding error exactly when the file parses, has
    a page, and the bold font cannot encode the overlay text; no other
    error can come out of the three. *)
Theorem single_file_services_errors file r overlayText st :
  (splitPdf file r st = Throw ParseError ↔ parse file = None)
  ∧ (extractText file st = Throw ParseError ↔ readItems file = None)
  ∧ (editPdf file overlayText st = Throw ParseError ↔ parse file = None)
  ∧ (editPdf file overlayText st = Throw EncodingError
     ↔ ∃ d, parse file = Some d ∧ docPages d ≠ []
            ∧ canEncode HelveticaBold overlayText = false)
  ∧ (∀ e, splitPdf file r st = Throw e ∨ extractText file st = Throw e →
          e = ParseError)
  ∧ (∀ e, editPdf file overlayText st = Throw e →
          e = ParseError ∨ e = EncodingError).
Proof.
  assert (Hsplit : match parse file with
                   | Some _ => ∃ x, splitPdf file r st = Ok x
                   | None => splitPdf file r st = Throw ParseError
                   end).
  { destruct (parse file) as [d|] eqn:Hd; [|by apply splitPdf_parse_error].
    destruct (splitPdf_indices_copy r (docPages d)) as [ps Hps].
    eexists. by apply splitPdf_run. }
  assert (Hextract : match readItems file with
                     | Some _ => ∃ x, extractText file st = Ok x
                     | None => extractText file st = Throw ParseError
                     end).
  { destruct (readItems file) as [pdf|] eqn:Hpdf;
      [|by apply extractText_parse_error].
    eexists. by apply extractText_run. }
  rewrite (editPdf_cases file overlayText st).
  split_and!.
  - destruct (parse file); [destruct Hsplit as [x ->]|]; by split.
  - destruct (readItems file); [destruct Hextract as [x ->]|]; by split.
  - destruct (parse file) as [d|]; [|by split].
    by destruct (canEncode _ _ || _).
  - destruct (parse file) as [d|];
      [|split; [done|by intros (d & [=] & _)]].
    destruct (canEncode HelveticaBold overlayText) eqn:Henc; cbn [orb].
    + split; [done|]. by intros (d' & _ & _ & [=]).
    + destruct (docPages d) as [|pg pages] eqn:Hpages; cbn [length Nat.eqb].
      * split; [done|]. intros (d' & [= <-] & Hne & _). by rewrite Hpages in Hne.
      * split; [|done]. intros _. exists d. by rewrite Hpages.
  - intros e [He|He].
    + destruct (parse file); [destruct Hsplit as [x Hx]|]; congruence.
    + destruct (readItems file); [destruct Hextract as [x Hx]|]; congruence.
  - intros e. destruct (parse file) as [d|]; [|intros [= <-]; by left].
    destruct (canEncode _ _ || _); [done|]. intros [= <-]. by right.
Qed.

(** X3: what the five functions return does not depend on the documents
    already in the store: started from any two stores they resolve to the
    same value or reject with the same error. *)
Theorem service_outcome_ignores_store files file r overlayText text title
    st1 st2 :
  outcome (mergePdfs files st1) = outcome (mergePdfs files st2)
  ∧ outcome (splitPdf file r st1) = outcome (splitPdf file r st2)
  ∧ outcome (editPdf file overlayText st1)
      = outcome (editPdf file overlayText st2)
  ∧ outcome (extractText file st1) = outcome (extractText file st2)
  ∧ outcome (createPdfFromText text title st1)
      = outcome (createPdfFromText text title st2).
Proof.
  repeat split.
  - destruct (mapM parse files) as [ds|] eqn:Hds.
    + by rewrite !(mergePdfs_run files ds) by done.
    + by rewrite !mergePdfs_parse_error by done.
  - destruct (parse file) as [d|] eqn:Hd.
    + destruct (splitPdf_indices_copy r (docPages d)) as [ps Hps].
      by rewrite !(splitPdf_run file d r ps) by done.
    + by rewrite !splitPdf_parse_error by done.
  - rewrite !editPdf_cases. destruct (parse file) as [d|]; [|done].
    by destruct (canEncode _ _ || _).
  - destruct (readItems file) as [pdf|] eqn:Hpdf.
    + by rewrite !(extractText_run file pdf) by done.
    + by rewrite !extractText_parse_error by done.
  - rewrite !createPdfFromText_cases.
    by destruct (linesEncodable (split_lines text)).
Qed.

Lemma pageAt_None (pages : list PDFPage) (i : Z) :
  ¬ ((0 ≤ i)%Z ∧ (i < Z.of_nat (length pages))%Z) → pageAt pages i = None.
Proof.
  intros Hout. unfold pageAt. destruct (Z.leb_spec 0 i); [|done].
  apply lookup_ge_None. lia.
Qed.

Lemma pageAt_Some (pages : list PDFPage) (i : Z) :
  (0 ≤ i)%Z ∧ (i < Z.of_nat (length pages))%Z → is_Some (pageAt pages i).
Proof.
  intros [Hlo Hhi]. unfold pageAt. destruct (Z.leb_spec 0 i); [|lia].
  apply lookup_lt_is_Some. lia.
Qed.

(** The pages [splitPdf] copies are the requested pages that exist, in the
    order of the request. *)
Lemma splitPdf_indices_pages (pages : list PDFPage) (r : list Z) :
  mapM (pageAt pages) (splitPdf_indices r (Z.of_nat (length pages))) =
  Some (omap (λ n, pageAt pages (n - 1)) r).
Proof.
  unfold splitPdf_indices. induction r as [|n r IH]; [done|].
  cbn [map omap list_omap]. rewrite filter_cons.
  destruct (decide ((0 ≤ n - 1)%Z ∧ (n - 1 < Z.of_nat (length pages))%Z))
    as [Hin|Hout].
  - destruct (pageAt_Some pages (n - 1) Hin) as [pg Hpg].
    cbn. rewrite Hpg, IH. reflexivity.
  - rewrite (pageAt_None pages (n - 1) Hout). exact IH.
Qed.

Lemma omap_pageAt_all (l : list PDFPage) : ∀ pre,
  omap (λ n, pageAt (pre ++ l) (n - 1))
    (Z.of_nat <$> seq (S (length pre)) (length l)) = l.
Proof.
  induction l as [|pg l IH]; intros pre; [done|].
  cbn [length seq fmap list_fmap omap list_omap].
  replace (Z.of_nat (S (length pre)) - 1)%Z with (Z.of_nat (length pre))
    by lia.
  rewrite pageAt_of_nat, list_lookup_middle by done. f_equal.
  specialize (IH (pre ++ [pg])).
  rewrite length_app, Nat.add_1_r, <- app_assoc in IH. exact IH.
Qed.

Lemma omap_reverse {A B : Type} (f : A → option B) (l : list A) :
  omap f (reverse l) = reverse (omap f l).
Proof.
  induction l as [|x l IH]; [done|].
  rewrite reverse_cons, omap_app, IH. cbn [omap list_omap].
  destruct (f x); [by rewrite reverse_cons|by rewrite app_nil_r].
Qed.

(** X4: asking [splitPdf] for the pages 1 to N of a file of N pages,
    N at least 1, in order, saves a new document with the pages of the
    file unchanged and leaves the loaded document as it was; asking for
    them from N down to 1 saves the pages in reverse. *)
Theorem splitPdf_all_pages file d st :
  parse file = Some d →
  docPages d ≠ [] →
  let all := Z.of_nat <$> seq 1 (length (docPages d)) in
  let copy := {| docPages := docPages d; docFonts := [] |} in
  let turned := {| docPages := reverse (docPages d); docFonts := [] |} in
  splitPdf file all st = Ok (serialize copy, st ++ [d; copy])
  ∧ splitPdf file (reverse all) st = Ok (serialize turned, st ++ [d; turned]).
Proof.
  intros Hd Hpages all copy turned.
  assert (omap (λ n, pageAt (docPages d) (n - 1)) all = docPages d) as Hall
    by apply (omap_pageAt_all (docPages d) []).
  split.
  - rewrite (splitPdf_run file d all _ st Hd (splitPdf_indices_pages _ _)).
    by rewrite Hall, savedPages_nonempty.
  - rewrite (splitPdf_run file d (reverse all) _ st Hd
               (splitPdf_indices_pages _ _)).
    rewrite omap_reverse, Hall, savedPages_nonempty; [done|].
    intros Hnone. apply Hpages.
    by rewrite <- (reverse_involutive (docPages d)), Hnone.
Qed.

(** X5: the text of a document is empty exactly when the document has no
    page; the text of any other document opens with the delimiter line of
    page 1. *)
Theorem extractText_empty_iff_no_page file pdf st :
  readItems file = Some pdf →
  ∃ fullText,
    extractText file st = Ok (fullText, st)
    ∧ (fullText = EmptyString ↔ pdf = [])
    ∧ (pdf ≠ [] →
       String.prefix ("--- Page 1 ---" ++ nl)%string fullText = true).
Proof.
  intros Hpdf. eexists. split; [by apply extractText_run|].
  destruct pdf as [|items pdf]; [done|].
  split; [done|]. intros _. cbn.
  destruct (ascii_dec newline newline); [|done].
  match goal with |- String.prefix EmptyString ?s = true => by destruct s end.
Qed.

(** *** The layout in closed form *)

Lemma cursorAfter_spec (j : nat) :
  (cursorAfter j == defaultHeight - 50 - 17 * inject_Z (Z.of_nat j))%Q.
Proof.
  induction j as [|j IH].
  - change (cursorAfter 0) with (defaultHeight - 50)%Q.
    change (inject_Z (Z.of_nat 0)) with 0%Q. lra.
  - change (cursorAfter (S j)) with (cursorAfter j - (12 + 5))%Q.
    rewrite Nat2Z.inj_succ, <- Z.add_1_r, inject_Z_plus.
    change (inject_Z 1) with 1%Q. lra.
Qed.

Lemma pageCapacity_positive :
  (120 <= defaultHeight)%Q → 1 ≤ pageCapacity defaultHeight.
Proof.
  intros Hheight. unfold pageCapacity.
  assert (0 <= (defaultHeight - 120) / 17)%Q as Hnn.
  { apply Qle_shift_div_l; lra. }
  apply Qfloor_resp_le in Hnn. change (Qfloor 0) with 0%Z in Hnn. lia.
Qed.

(** With [j] lines on the page, the next line breaks the page exactly
    when the page is full. *)
Lemma cursorAfter_break (j : nat) :
  j ≤ pageCapacity defaultHeight →
  Qlt_bool (cursorAfter j) (50 + 20) = true ↔ j = pageCapacity defaultHeight.
Proof.
  intros Hj. rewrite Qlt_bool_true, cursorAfter_spec. split.
  - intros Hlow.
    destruct (decide (j = pageCapacity defaultHeight)) as [|Hne]; [done|].
    pose proof (pageCapacity_fits (S j)) as Hfit.
    rewrite Nat2Z.inj_succ, <- Z.add_1_r, inject_Z_plus in Hfit.
    change (inject_Z 1) with 1%Q in Hfit.
    specialize (Hfit ltac:(lia) ltac:(lia)). lra.
  - intros ->. apply pageCapacity_overflow.
Qed.

Lemma layoutStep_pages pages idx y line :
  length pages = S idx →
  layoutStep (pages, idx, y) line =
  if Qlt_bool y (50 + 20)
  then (pages ++ [drawOn (substring line 0 100)
                    (lineOptions (defaultHeight - 50)) blankPage],
        S idx, (defaultHeight - 50 - (12 + 5))%Q)
  else (alter (drawOn (substring line 0 100) (lineOptions y)) idx pages,
        idx, (y - (12 + 5))%Q).
Proof.
  intros Hlen. unfold layoutStep. destruct (Qlt_bool y (50 + 20)); [|done].
  replace (length pages) with (length pages + 0) at 1 by lia.
  rewrite alter_app_r. cbn. by rewrite Hlen.
Qed.

Lemma laidOut_start c : laidOut c [] ([blankPage], 0, cursorAfter 0).
Proof.
  exists 0. cbn [fst snd]. split_and!; try done; try lia.
  intros [|i] pg Hpg; [|done]. cbn in Hpg. by injection Hpg as <-.
Qed.

Lemma laidOut_step done pages idx y line :
  1 ≤ pageCapacity defaultHeight →
  laidOut (pageCapacity defaultHeight) done (pages, idx, y) →
  laidOut (pageCapacity defaultHeight) (done ++ [line])
    (layoutStep (pages, idx, y) line).
Proof.
  set (c := pageCapacity defaultHeight).
  intros Hc (j & Hlen & Hy & Hj & Hdone & Hfirst & Hsizes & Hlines).
  cbn [fst snd] in *. rewrite layoutStep_pages by done. subst y.
  pose proof (cursorAfter_break j Hj) as Hbreak. fold c in Hbreak.
  destruct (Qlt_bool (cursorAfter j) (50 + 20)) eqn:Hlow.
  - (* the page is full: the line opens a new page *)
    assert (j = c) as -> by by apply Hbreak.
    assert (length done `div` c = S idx ∧ length done `mod` c = 0)
      as [Hdiv Hmod].
    { split; symmetry;
        [apply (Nat.div_unique _ c _ 0)|apply (Nat.mod_unique _ c (S idx))];
        lia. }
    exists 1. cbn [fst snd]. split_and!.
    + rewrite length_app. cbn. lia.
    + done.
    + done.
    + rewrite length_app. cbn. lia.
    + done.
    + intros i pg Hpg. apply lookup_app_Some in Hpg as [Hpg|[Hi Hpg]].
      * pose proof (lookup_lt_Some _ _ _ Hpg) as Hlt.
        rewrite (Hsizes i pg Hpg).
        destruct (decide (i = idx)), (decide (i = S idx)); try done; lia.
      * apply list_lookup_singleton_Some in Hpg as [Hi0 <-].
        destruct (decide (i = S idx)); [done|lia].
    + intros k ln Hk. apply lookup_app_Some in Hk as [Hk|[Hge Hk]].
      * destruct (Hlines k ln Hk) as (pg & Hpg & Hop).
        exists pg. split; [|done]. by apply lookup_app_l_Some.
      * apply list_lookup_singleton_Some in Hk as [Hk0 <-].
        replace k with (length done) by lia. rewrite Hdiv, Hmod.
        eexists. split.
        -- rewrite lookup_app_r by lia.
           by replace (S idx - length pages) with 0 by lia.
        -- done.
  - (* the line goes on the current page *)
    assert (j < c) as Hlt.
    { destruct (decide (j = c)) as [Heq|]; [|lia].
      apply Hbreak in Heq. congruence. }
    assert (length done `div` c = idx ∧ length done `mod` c = j)
      as [Hdiv Hmod].
    { split; symmetry;
        [apply (Nat.div_unique _ c _ j)|apply (Nat.mod_unique _ c idx)];
        lia. }
    destruct (lookup_lt_is_Some_2 pages idx ltac:(lia)) as [cur Hcur].
    pose proof (Hsizes idx cur Hcur) as Hcursize.
    rewrite decide_True in Hcursize by done.
    exists (S j). cbn [fst snd]. split_and!.
    + by rewrite length_alter.
    + done.
    + lia.
    + rewrite length_app. cbn. lia.
    + done.
    + intros i pg Hpg. destruct (decide (i = idx)) as [->|Hne].
      * rewrite list_lookup_alter_eq, Hcur in Hpg. injection Hpg as <-.
        cbn. rewrite length_app. cbn. lia.
      * rewrite list_lookup_alter_ne in Hpg by done. rewrite (Hsizes i pg Hpg).
        by rewrite decide_False.
    + intros k ln Hk. apply lookup_app_Some in Hk as [Hk|[Hge Hk]].
      * destruct (Hlines k ln Hk) as (pg & Hpg & Hop).
        destruct (decide (k `div` c = idx)) as [Hhere|Hne].
        -- rewrite Hhere in *. rewrite Hcur in Hpg. injection Hpg as <-.
           eexists. split; [by rewrite list_lookup_alter_eq, Hcur|].
           cbn. by apply lookup_app_l_Some.
        -- exists pg. split; [|done]. by rewrite list_lookup_alter_ne.
      * apply list_lookup_singleton_Some in Hk as [Hk0 <-].
        replace k with (length done) by lia. rewrite Hdiv, Hmod.
        eexists. split; [by rewrite list_lookup_alter_eq, Hcur|].
        cbn. rewrite lookup_app_r by lia.
        by replace (j - length (pageDrawn cur)) with 0 by lia.
Qed.

Lemma laidOut_fold lines : ∀ done s,
  1 ≤ pageCapacity defaultHeight →
  laidOut (pageCapacity defaultHeight) done s →
  laidOut (pageCapacity defaultHeight) (done ++ lines)
    (fold_left layoutStep lines s).
Proof.
  induction lines as [|line lines IH]; intros done s Hc Hinv.
  - by rewrite app_nil_r.
  - cbn [fold_left]. replace (done ++ line :: lines)
      with ((done ++ [line]) ++ lines) by by rewrite <- app_assoc.
    apply IH; [done|]. destruct s as [[pages idx] y].
    by apply laidOut_step.
Qed.

Lemma split_lines_count text :
  length (split_lines text) = S (count_char newline text).
Proof.
  induction text as [|ch text IH]; [done|]. cbn [split_lines count_char].
  destruct (Ascii.eqb ch newline); cbn [length]; [by rewrite IH|].
  destruct (split_lines text); cbn in *; lia.
Qed.

(** X6: on a page at least 120 units high, which holds [c] lines, and
    for a text whose lines Helvetica can encode, the text has one line
    more than it has line feeds, line [k] (from 0) is drawn on page
    [k / c] as that page's operation [k mod c], at
    [height - 50 - 17 * (k mod c)]; the document has
    [1 + (lines - 1) / c] pages, none of them empty and none with more
    than [c] lines. *)
Theorem createPdfFromText_line_positions text title st :
  (120 <= defaultHeight)%Q →
  linesEncodable (split_lines text) = true →
  let lines := split_lines text in
  let c := pageCapacity defaultHeight in
  ∃ out,
    createPdfFromText text title st = Ok (serialize out, st ++ [out])
    ∧ length lines = S (count_char newline text)
    ∧ length (docPages out) = S ((length lines - 1) / c)
    ∧ (∀ k line, lines !! k = Some line →
         ∃ pg y,
           docPages out !! (k / c) = Some pg
           ∧ pageDrawn pg !! (k mod c)
               = Some (substring line 0 100, lineOptions y)
           ∧ (y == defaultHeight - 50
                   - 17 * inject_Z (Z.of_nat (k mod c)))%Q)
    ∧ Forall (λ pg, 1 ≤ length (pageDrawn pg) ≤ c) (docPages out).
Proof.
  intros Hheight Henc lines c.
  pose proof (pageCapacity_positive Hheight) as Hc. fold c in Hc.
  eexists. split; [by apply createPdfFromText_run|]. cbn [docPages].
  pose proof (laidOut_fold lines [] _ Hc (laidOut_start c)) as Hinv.
  fold lines. unfold layout.
  change (defaultHeight - 50)%Q with (cursorAfter 0).
  destruct (fold_left layoutStep lines ([blankPage], 0, cursorAfter 0))
    as [[pages idx] y].
  destruct Hinv as (j & Hlen & Hy & Hj & Hdone & Hfirst & Hsizes & Hlines).
  cbn [fst snd app] in *. fold c in Hj, Hdone, Hsizes, Hlines.
  pose proof (split_lines_nonempty text) as Hpos. fold lines in Hpos.
  assert (1 ≤ j) as Hj1.
  { destruct j; [|lia]. rewrite (Hfirst eq_refl) in Hdone. lia. }
  split_and!.
  - apply split_lines_count.
  - rewrite Hlen. f_equal.
    apply (Nat.div_unique _ c _ (j - 1)); lia.
  - intros k line Hk. destruct (Hlines k line Hk) as (pg & Hpg & Hop).
    exists pg, (cursorAfter (k `mod` c)).
    split; [done|]. split; [done|]. apply cursorAfter_spec.
  - apply Forall_forall. intros pg Hin.
    apply list_elem_of_lookup in Hin as [i Hi].
    rewrite (Hsizes i pg Hi). destruct (decide (i = idx)); lia.
Qed.

(** ** Strings of the host language *)

Lemma string_length_append (a b : string) :
  String.length (a ++ b) = String.length a + String.length b.
Proof. induction a as [|x a IH]; cbn; [done|by rewrite IH]. Qed.

Lemma string_drop_append (a b : string) :
  string_drop (String.length a) (a ++ b) = b.
Proof. induction a as [|x a IH]; cbn; [by destruct b|done]. Qed.

Lemma endsWith_append (a b : string) : endsWith (a ++ b) b = true.
Proof.
  unfold endsWith. rewrite string_length_append.
  replace (String.length a + String.length b - String.length b)
    with (String.length a) by lia.
  rewrite string_drop_append, String.eqb_refl, andb_true_r.
  apply Nat.leb_le. lia.
Qed.

Lemma split_char_nonempty c s : split_char c s ≠ [].
Proof.
  destruct s as [|ch s]; cbn; [done|].
  destruct (Ascii.eqb ch c); [done|]. by destruct (split_char c s).
Qed.

Lemma split_char_absent c s :
  contains_char c s = false → split_char c s = [s].
Proof.
  induction s as [|ch s IH]; [done|]. cbn. intros [Hc Hs]%orb_false_iff.
  rewrite Ascii.eqb_sym, Hc. by rewrite IH.
Qed.

Lemma split_char_first c a b :
  contains_char c a = false →
  split_char c (a ++ String c b) = a :: split_char c b.
Proof.
  induction a as [|ch a IH]; cbn.
  - intros _. by rewrite Ascii.eqb_refl.
  - intros [Hc Ha]%orb_false_iff. rewrite Ascii.eqb_sym, Hc.
    by rewrite IH.
Qed.

(** Splitting what [join] made with the same separator gives the items
    back, when no item contains the separator. *)
Lemma split_char_join c (items : list string) :
  items ≠ [] →
  Forall (λ item, contains_char c item = false) items →
  split_char c (join (String c EmptyString) items) = items.
Proof.
  intros Hne Hitems. induction Hitems as [|item items Hitem Hitems IH];
    [done|].
  destruct items as [|item' items].
  - cbn. by apply split_char_absent.
  - change (join (String c EmptyString) (item :: item' :: items))
      with (item ++ String c (join (String c EmptyString) (item' :: items)))%string.
    rewrite split_char_first by done. by rewrite IH.
Qed.

Lemma decimal_digit_char c :
  isDecimalDigit c = true →
  isWhiteSpace c = false
  ∧ Ascii.eqb "," c = false
  ∧ Ascii.eqb c "-" = false ∧ Ascii.eqb c "+" = false
  ∧ Ascii.eqb c "x" = false ∧ Ascii.eqb c "X" = false
  ∧ digitValue c = Some (Z.of_nat (nat_of_ascii c) - 48)%Z
  ∧ (Z.of_nat (nat_of_ascii c) - 48 <? 10)%Z = true.
Proof.
  destruct c as [[] [] [] [] [] [] [] []]; by vm_compute.
Qed.

Lemma numeral_digits (u : Decimal.uint) :
  string_forallb isDecimalDigit (NilEmpty.string_of_uint u) = true.
Proof. induction u; cbn; done. Qed.

Lemma revapp_nonnil (d acc : Decimal.uint) :
  acc ≠ Decimal.Nil → Decimal.revapp d acc ≠ Decimal.Nil.
Proof. revert acc. induction d; intros acc Hacc; cbn; auto. Qed.

Lemma to_little_uint_nonnil (n : nat) : ∀ acc,
  acc ≠ Decimal.Nil → Nat.to_little_uint n acc ≠ Decimal.Nil.
Proof.
  induction n as [|n IH]; intros acc Hacc; cbn; [done|].
  apply IH. by destruct acc.
Qed.

Lemma toString_nonempty (n : nat) : toString n ≠ EmptyString.
Proof.
  unfold toString, Nat.to_uint, Decimal.rev.
  pose proof (to_little_uint_nonnil n Decimal.zero ltac:(done)) as Hne.
  destruct (Nat.to_little_uint n Decimal.zero) as [|d|d|d|d|d|d|d|d|d|d];
    [done|..]; cbn;
    match goal with
    | |- NilEmpty.string_of_uint (Decimal.revapp ?d ?acc) ≠ _ =>
        pose proof (revapp_nonnil d acc ltac:(done));
        by destruct (Decimal.revapp d acc)
    end.
Qed.

Lemma digits_no_separator s :
  string_forallb isDecimalDigit s = true → contains_char "," s = false.
Proof.
  induction s as [|c s IH]; [done|]. cbn [string_forallb contains_char].
  intros [Hc Hs]%andb_true_iff.
  destruct (decimal_digit_char c Hc) as (_ & -> & _). by apply IH.
Qed.

Lemma digits_trim s :
  string_forallb isDecimalDigit s = true → trim s = s.
Proof.
  intros Hs. unfold trim.
  assert (trimStart s = s) as ->.
  { destruct s as [|c s]; [done|]. cbn [string_forallb trimStart] in *.
    apply andb_true_iff in Hs as [Hc _].
    by destruct (decimal_digit_char c Hc) as (-> & _). }
  induction s as [|c s IH]; [done|]. cbn [string_forallb trimEnd] in *.
  apply andb_true_iff in Hs as [Hc Hs]. rewrite IH by done.
  destruct (decimal_digit_char c Hc) as (-> & _). by destruct s.
Qed.

Lemma digitsPrefix_numeral (u : Decimal.uint) : ∀ a : nat,
  digitsPrefix 10 (NilEmpty.string_of_uint u) (Some (Z.of_nat a)) =
  Some (Z.of_nat (Nat.of_uint_acc u a)).
Proof.
  induction u; intros a; cbn [NilEmpty.string_of_uint Nat.of_uint_acc];
    [done|..];
    cbn [digitsPrefix]; rewrite Nat.tail_mul_spec;
    match goal with
    | |- context [digitValue ?c] =>
        replace (digitValue c) with (Some (Z.of_nat (nat_of_ascii c) - 48)%Z)
          by by vm_compute
    end;
    cbn [nat_of_ascii]; cbv beta iota;
    match goal with
    | |- (if ?b then _ else _) = _ => replace b with true by by vm_compute
    end;
    match goal with
    | |- digitsPrefix 10 _ (Some ?z) = Some (Z.of_nat (Nat.of_uint_acc _ ?m)) =>
        replace z with (Z.of_nat m); [by apply IHu|]
    end;
    cbn [default]; vm_compute (Z.of_nat (nat_of_ascii _)); unfold id; lia.
Qed.

(** Reading back a decimal numeral gives its number. *)
Lemma parseInt_toString (n : nat) : parseInt (toString n) = Some (Z.of_nat n).
Proof.
  pose proof (toString_nonempty n) as Hne.
  pose proof (numeral_digits (Nat.to_uint n)) as Hdigits.
  pose proof (digitsPrefix_numeral (Nat.to_uint n) 0) as Hvalue.
  fold (toString n) in Hdigits, Hvalue.
  change (Nat.of_uint_acc (Nat.to_uint n) 0)
    with (Nat.of_uint (Nat.to_uint n)) in Hvalue.
  rewrite DecimalNat.Unsigned.of_to in Hvalue.
  destruct (toString n) as [|c s]; [done|]. clear Hne.
  cbn [string_forallb] in Hdigits.
  apply andb_true_iff in Hdigits as [Hc Hs].
  destruct (decimal_digit_char c Hc)
    as (Hws & _ & Hminus & Hplus & _ & _ & Hval & Hlt).
  unfold parseInt. cbn [trimStart]. rewrite Hws, Hminus, Hplus.
  assert (digitsPrefix 10 (String c s) None = Some (Z.of_nat n)) as Hparse.
  { rewrite <- Hvalue. cbn [digitsPrefix]. by rewrite Hval, Hlt. }
  destruct s as [|c1 s].
  - rewrite Hparse. cbn. f_equal. lia.
  - cbn [string_forallb] in Hs. apply andb_true_iff in Hs as [Hc1 _].
    destruct (decimal_digit_char c1 Hc1) as (_ & _ & _ & _ & -> & -> & _).
    rewrite andb_false_r, Hparse. cbn. f_equal. lia.
Qed.

Lemma trimStart_spaces (a : nat) (s : string) :
  trimStart (repeat_char " " a ++ s) = trimStart s.
Proof. induction a as [|a IH]; [done|]. cbn. exact IH. Qed.

Lemma trimEnd_spaces (b : nat) : trimEnd (repeat_char " " b) = EmptyString.
Proof. induction b as [|b IH]; [done|]. cbn. by rewrite IH. Qed.

Lemma trimEnd_append_spaces (s : string) (b : nat) :
  trimEnd (s ++ repeat_char " " b) = trimEnd s.
Proof.
  induction s as [|c s IH]; [apply trimEnd_spaces|].
  cbn [String.append trimEnd]. by rewrite IH.
Qed.

Lemma spaces_no_separator (a : nat) :
  contains_char "," (repeat_char " " a) = false.
Proof. induction a as [|a IH]; [done|]. cbn. exact IH. Qed.

Lemma contains_char_append c (a b : string) :
  contains_char c (a ++ b) = contains_char c a || contains_char c b.
Proof.
  induction a as [|x a IH]; [done|]. cbn. by rewrite IH, orb_assoc.
Qed.

Lemma typedNumber_parse (entry : nat * nat * nat) :
  contains_char "," (typedNumber entry) = false
  ∧ parseInt (trim (typedNumber entry)) = Some (Z.of_nat entry.1.2).
Proof.
  destruct entry as [[a n] b]. unfold typedNumber. cbn [fst snd].
  pose proof (numeral_digits (Nat.to_uint n)) as Hdigits.
  fold (toString n) in Hdigits. split.
  - rewrite !contains_char_append, !spaces_no_separator.
    by rewrite digits_no_separator.
  - unfold trim. rewrite trimStart_spaces.
    pose proof (digits_trim _ Hdigits) as Htrim. unfold trim in Htrim.
    assert (trimStart (toString n ++ repeat_char " " b)
            = (trimStart (toString n) ++ repeat_char " " b)%string) as ->.
    { pose proof (toString_nonempty n) as Hne.
      destruct (toString n) as [|c s]; [done|].
      cbn [string_forallb] in Hdigits.
      apply andb_true_iff in Hdigits as [Hc _].
      cbn [String.append trimStart].
      by destruct (decimal_digit_char c Hc) as (-> & _). }
    rewrite trimEnd_append_spaces, Htrim. apply parseInt_toString.
Qed.


Lemma parsePageNumbers_entries (entries : list (nat * nat * nat)) :
  parsePageNumbers (join "," (typedNumber <$> entries)) =
  (λ entry, Z.of_nat entry.1.2) <$> entries.
Proof.
  unfold parsePageNumbers.
  destruct entries as [|entry entries]; [done|].
  rewrite (split_char_join "," (typedNumber <$> entry :: entries)).
  - generalize (entry :: entries). intros l.
    induction l as [|e l IH]; [done|].
    cbn [fmap list_fmap omap list_omap].
    destruct (typedNumber_parse e) as [_ ->]. by rewrite IH.
  - done.
  - apply Forall_fmap, Forall_forall. intros e _.
    exact (proj1 (typedNumber_parse e)).
Qed.

(** X8: when the answer to the prompt of [runSplit] is a list of decimal
    numerals below 2^53 separated by commas, each with any number of
    spaces around it, the page numbers read from it are those numbers, in
    the order typed. *)
Theorem parsePageNumbers_typed (entries : list (nat * nat * nat)) :
  Forall (λ entry, (Z.of_nat entry.1.2 < 2 ^ 53)%Z) entries →
  parsePageNumbers (join "," (typedNumber <$> entries)) =
  (λ entry, Z.of_nat entry.1.2) <$> entries.
Proof. intros _. apply parsePageNumbers_entries. Qed.

(** ** The application shell *)

Lemma finalName_has_extension name :
  endsWith (finalName name) ".pdf" = true
  ∨ endsWith (finalName name) ".doc" = true.
Proof.
  unfold finalName.
  destruct (endsWith name ".pdf") eqn:Hpdf; [by left|].
  destruct (endsWith name ".doc") eqn:Hdoc; [by right|].
  left. apply endsWith_append.
Qed.

(** X9: [runMerge] with fewer than two files only alerts.  With two or
    more it either saves one PDF, the pages of all the files in upload
    order (the default page of [save] when the files have no page at
    all), under the output name (or [merged_ok]) and reports it in the
    status, or, when a file does not parse, saves nothing, logs the error
    and alerts; either way the busy flag ends cleared. *)
Theorem runMerge_outcome (w : World File Uint8Array) :
  if length (files w) <? 2
  then runMerge w = alert "Please upload at least 2 files to merge." w
  else
    loading (runMerge w) = false
    ∧ files (runMerge w) = files w
    ∧ match mapM parse (fd_file <$> files w) with
      | Some ds =>
          let name := finalName (or_else (outputFilename w) "merged_ok") in
          downloads (runMerge w) =
            downloads w ++
            [(pdfBlob (serialize
                         {| docPages := savedPages (concat (docPages <$> ds));
                            docFonts := [] |}), name)]
          ∧ status (runMerge w) = ("Saved as: " ++ name)%string
          ∧ alerts (runMerge w) = alerts w
          ∧ consoleErrors (runMerge w) = consoleErrors w
      | None =>
          downloads (runMerge w) = downloads w
          ∧ status (runMerge w) = status w
          ∧ alerts (runMerge w) = alerts w ++ ["Error merging PDFs"%string]
          ∧ consoleErrors (runMerge w)
              = consoleErrors w ++ [ServiceError ParseError]
      end.
Proof.
  unfold runMerge. destruct (length (files w) <? 2); [done|].
  unfold try_catch_finally, andThen, await, perform. cbn [heap setLoading].
  destruct (mapM parse (fd_file <$> files w)) as [ds|] eqn:Hds.
  - rewrite (mergePdfs_run _ ds) by done. by cbn.
  - rewrite mergePdfs_parse_error by done. by cbn.
Qed.

Ltac run_cases :=
  repeat match goal with
         | |- context [match ?x with _ => _ end] =>
             lazymatch x with
             | context [match _ with _ => _ end] => fail
             | _ => destruct x eqn:?
             end
         end.

Ltac frame_solve :=
  cbn; split_and!; try done;
  try (by left); try (by right; left); try (by right; right; eexists);
  try (by apply prefix_app_r); try (by left);
  try (right; eexists _, _; split_and!;
       [reflexivity|apply finalName_has_extension|done|done]).

(** X10: whatever the files, the answers and the replies of the parsers
    and of the language model, each of the seven actions leaves the
    uploaded files, the mode and the output name as they were; it ends
    with the busy flag cleared unless it returned at once, so an idle
    application stays idle; it never removes an alert, a console error or
    a download; it saves at most one file, under a name ending in [.pdf]
    or [.doc], and when it saves one it has alerted and logged nothing. *)
Theorem actions_frame (answer : option string) (w : World File Uint8Array) :
  Forall (λ run,
      files (run w) = files w
      ∧ mode (run w) = mode w
      ∧ outputFilename (run w) = outputFilename w
      ∧ (loading (run w) = false ∨ run w = w
         ∨ ∃ message, run w = alert message w)
      ∧ (loading w = false → loading (run w) = false)
      ∧ alerts w `prefix_of` alerts (run w)
      ∧ consoleErrors w `prefix_of` consoleErrors (run w)
      ∧ (downloads (run w) = downloads w
         ∨ ∃ blob name,
             downloads (run w) = downloads w ++ [(blob, name)]
             ∧ (endsWith name ".pdf" = true ∨ endsWith name ".doc" = true)
             ∧ alerts (run w) = alerts w
             ∧ consoleErrors (run w) = consoleErrors w))
    (actions answer).
Proof.
  unfold actions. repeat apply Forall_cons_2; [..|apply Forall_nil_2].
  - unfold runMerge, try_catch_finally, andThen, await, perform.
    run_cases; frame_solve.
  - unfold runSplit, try_catch_finally, andThen, await, perform.
    run_cases; frame_solve.
  - unfold runEdit, try_catch_finally, andThen, await, perform.
    run_cases; frame_solve.
  - unfold runRead, try_catch_finally, andThen, await, host, perform.
    run_cases; frame_solve.
  - unfold runTranslate, try_catch_finally, andThen, await, host, perform.
    run_cases; frame_solve.
  - unfold runConvertDoc, try_catch_finally, andThen, await, host, perform.
    run_cases; frame_solve.
  - unfold runPhotoToPdf, try_catch_finally, andThen, await, host, perform.
    run_cases; frame_solve.
Qed.

Lemma omap_after_fmap {A B C : Type} (g : A → B) (f : B → option C)
    (l : list A) :
  omap f (g <$> l) = omap (λ x, f (g x)) l.
Proof.
  induction l as [|x l IH]; [done|]. cbn. by rewrite IH.
Qed.

Lemma typed_answer_nonempty (entries : list (nat * nat * nat)) :
  entries ≠ [] → join "," (typedNumber <$> entries) ≠ EmptyString.
Proof.
  intros Hne Hempty. pose proof (parsePageNumbers_entries entries) as Hparse.
  rewrite Hempty in Hparse. by destruct entries.
Qed.

(** X11: with a file that parses uploaded first, answering the prompt of
    [runSplit] with decimal numerals below 2^53 separated by commas,
    spaces allowed, saves one PDF whose pages are the pages so numbered,
    in the order typed and as often as typed, numbers outside the
    document left out; when every number is outside the document the PDF
    is the one default page of [save]; nothing is alerted or logged. *)
Theorem runSplit_typed_pages (w : World File Uint8Array) f0 rest d
    (entries : list (nat * nat * nat)) :
  files w = f0 :: rest →
  parse (fd_file f0) = Some d →
  entries ≠ [] →
  Forall (λ entry, (Z.of_nat entry.1.2 < 2 ^ 53)%Z) entries →
  let w' := runSplit (Some (join "," (typedNumber <$> entries))) w in
  let ps := omap (λ entry, pageAt (docPages d) (Z.of_nat entry.1.2 - 1))
              entries in
  downloads w' =
    downloads w ++
    [(pdfBlob (serialize {| docPages := savedPages ps; docFonts := [] |}),
      finalName (or_else (outputFilename w) "split_ok"))]
  ∧ (ps ≠ [] → savedPages ps = ps)
  ∧ (ps = [] → savedPages ps = [blankPage])
  ∧ (Forall (λ entry, 1 ≤ entry.1.2 ≤ length (docPages d)) entries →
     ps ≠ []
     ∧ Forall2 (λ entry pg, docPages d !! (entry.1.2 - 1) = Some pg)
         entries ps)
  ∧ alerts w' = alerts w
  ∧ consoleErrors w' = consoleErrors w
  ∧ loading w' = false.
Proof.
  intros Hfiles Hd Hne _ w' ps.
  assert (w' = setLoading false
            (downloadBlob
               (inl (serialize {| docPages := savedPages ps;
                                  docFonts := [] |}))
               (or_else (outputFilename w) "split_ok")
               (setHeap (heap w ++ [d; {| docPages := savedPages ps;
                                          docFonts := [] |}])
                  (setLoading true w)))) as ->.
  { unfold w', runSplit. rewrite Hfiles.
    pose proof (typed_answer_nonempty entries Hne) as Hanswer.
    destruct (join "," (typedNumber <$> entries)) as [|c s] eqn:Hjoin;
      [done|]. rewrite <- Hjoin, parsePageNumbers_entries.
    unfold try_catch_finally, andThen, await, perform. cbn [heap setLoading].
    rewrite (splitPdf_run _ d _ ps) by (done || (rewrite splitPdf_indices_pages;
      unfold ps; by rewrite omap_after_fmap)).
    reflexivity. }
  assert (Forall (λ entry, 1 ≤ entry.1.2 ≤ length (docPages d)) entries →
          Forall2 (λ entry pg, docPages d !! (entry.1.2 - 1) = Some pg)
            entries ps) as Hall.
  { intros Hrange. unfold ps. clear -Hrange.
    induction Hrange as [|[[a n] b] entries [Hlo Hhi] _ IH]; [constructor|].
    cbn [omap list_omap fst snd] in *.
    replace (Z.of_nat n - 1)%Z with (Z.of_nat (n - 1)) by lia.
    rewrite pageAt_of_nat.
    destruct (lookup_lt_is_Some_2 (docPages d) (n - 1) ltac:(lia))
      as [pg Hpg].
    rewrite Hpg. by constructor. }
  cbn [downloads alerts consoleErrors loading setLoading downloadBlob
       setStatus saveAs setHeap].
  split_and!; try done.
  - apply savedPages_nonempty.
  - by intros ->.
  - intros Hrange. split; [|by apply Hall].
    intros Hnone. specialize (Hall Hrange). rewrite Hnone in Hall.
    apply Forall2_nil_inv_r in Hall. done.
Qed.

(** X12: [runEdit] does nothing when the prompt is cancelled or answered
    with the empty text.  Otherwise, when the bold font can encode the
    answer or the first uploaded file has no page, it saves that file
    with the answer stamped on every page (the default page of [save]
    when it has none), under the output name (or [edited_ok]); when the
    file does not parse, or has a page and the font cannot encode the
    answer, it saves nothing and logs the error on the console only:
    unlike merge and split, no alert tells the user. *)
Theorem runEdit_outcome (w : World File Uint8Array) f0 rest text :
  files w = f0 :: rest →
  text ≠ EmptyString →
  let w' := runEdit (Some text) w in
  let failed e :=
    downloads w' = downloads w
    ∧ consoleErrors w' = consoleErrors w ++ [ServiceError e]
    ∧ status w' = status w in
  runEdit None w = w
  ∧ runEdit (Some EmptyString) w = w
  ∧ loading w' = false
  ∧ alerts w' = alerts w
  ∧ match parse (fd_file f0) with
    | Some d =>
        if canEncode HelveticaBold text || (length (docPages d) =? 0)
        then
          downloads w' =
            downloads w ++
            [(pdfBlob (serialize
                         {| docPages :=
                              savedPages (overlay text <$> docPages d);
                            docFonts := docFonts d ++ [HelveticaBold] |}),
              finalName (or_else (outputFilename w) "edited_ok"))]
          ∧ consoleErrors w' = consoleErrors w
        else failed EncodingError
    | None => failed ParseError
    end.
Proof.
  intros Hfiles Htext w' failed. unfold failed, w', runEdit. rewrite Hfiles.
  destruct text as [|c s]; [done|].
  unfold try_catch_finally, andThen, await, perform. cbn [heap setLoading].
  rewrite editPdf_cases.
  destruct (parse (fd_file f0)) as [d|] eqn:Hd; [|by cbn].
  by destruct (canEncode _ _ || _).
Qed.

Lemma extractText_cases file st :
  (∃ pdfText, extractText file st = Ok (pdfText, st))
  ∨ extractText file st = Throw ParseError.
Proof.
  destruct (readItems file) as [pdf|] eqn:Hpdf.
  - left. eexists. by apply extractText_run.
  - right. by apply extractText_parse_error.
Qed.

(** X13: with a file uploaded and a question typed, [runRead] clears the
    input, appends the question to the chat and, when the client, the
    text extraction and the model all succeed, appends the reply, or
    [No response.] when the reply has no text; when any of them fails the
    question stays in the chat without a reply and the error goes to the
    console.  It never alerts or saves, and ends with the busy flag
    cleared. *)
Theorem runRead_outcome (w : World File Uint8Array) f0 rest :
  files w = f0 :: rest →
  inputText w ≠ EmptyString →
  let w' := runRead w in
  let question := {| role := RoleUser; content := inputText w |} in
  let failed e :=
    chatHistory w' = chatHistory w ++ [question]
    ∧ consoleErrors w' = consoleErrors w ++ [e] in
  inputText w' = EmptyString
  ∧ loading w' = false
  ∧ alerts w' = alerts w
  ∧ downloads w' = downloads w
  ∧ match newGoogleGenAI, extractText (fd_file f0) (heap w) with
    | inl e, _ => failed e
    | inr _, Throw e => failed (ServiceError e)
    | inr _, Ok (pdfText, _) =>
        match generateContent (readRequest pdfText (inputText w)) with
        | inl e => failed e
        | inr response =>
            chatHistory w' =
              chatHistory w ++
              [question;
               {| role := RoleModel;
                  content := text_or response "No response." |}]
            ∧ consoleErrors w' = consoleErrors w
        end
    end.
Proof.
  intros Hfiles Hinput w' question failed.
  unfold failed, question, w', runRead. rewrite Hfiles.
  destruct (inputText w) as [|c s] eqn:Htext; [done|].
  unfold try_catch_finally, andThen, await, host, perform, readRequest,
    geminiModel.
  cbn [heap setLoading setInputText setChatHistory].
  destruct newGoogleGenAI as [e|[]]; [by cbn|].
  destruct (extractText (fd_file f0) (heap w)) as [[pdfText h]|e]; [|by cbn].
  destruct (generateContent _) as [e|response]; cbn;
    by rewrite <- ?app_assoc.
Qed.

Lemma substring_length_bound (s : string) (n : nat) :
  String.length (substring s 0 n) ≤ n.
Proof.
  rewrite substring_from_start, string_take_length. apply Nat.le_min_l.
Qed.

(** X14: [runTranslate] sends the model [Translate to Hindi:], a blank
    line and at most the first 10000 characters of the extracted text.
    When Helvetica can encode the lines of the reply, or of
    [Translation failed.] when the reply has no text, it saves their
    layout as one PDF under the output name (or [hindi_ok]).  When the
    client, the extraction or the model fails, or the font cannot encode
    a line of the reply, it saves nothing, logs the error without an
    alert, and the status still reads [Translating to Hindi...]. *)
Theorem runTranslate_outcome (w : World File Uint8Array) f0 rest :
  files w = f0 :: rest →
  let w' := runTranslate w in
  let failed e :=
    downloads w' = downloads w
    ∧ consoleErrors w' = consoleErrors w ++ [e]
    ∧ status w' = "Translating to Hindi..."%string in
  loading w' = false
  ∧ alerts w' = alerts w
  ∧ match newGoogleGenAI, extractText (fd_file f0) (heap w) with
    | inl e, _ => failed e
    | inr _, Throw e => failed (ServiceError e)
    | inr _, Ok (pdfText, _) =>
        String.length (substring pdfText 0 10000) ≤ 10000
        ∧ match generateContent (translateRequest pdfText) with
          | inl e => failed e
          | inr response =>
              let hindiText := text_or response "Translation failed." in
              if linesEncodable (split_lines hindiText)
              then
                ∃ out,
                  (∀ st, createPdfFromText hindiText "Hindi Translation" st
                         = Ok (serialize out, st ++ [out]))
                  ∧ downloads w' =
                      downloads w ++
                      [(pdfBlob (serialize out),
                        finalName (or_else (outputFilename w) "hindi_ok"))]
                  ∧ status w' =
                      ("Saved as: "
                       ++ finalName (or_else (outputFilename w) "hindi_ok"))%string
                  ∧ consoleErrors w' = consoleErrors w
              else failed (ServiceError EncodingError)
          end
    end.
Proof.
  intros Hfiles w' failed. unfold failed, w', runTranslate. rewrite Hfiles.
  unfold try_catch_finally, andThen, await, host, perform, translateRequest,
    geminiModel.
  cbn [heap setLoading setStatus].
  destruct newGoogleGenAI as [e|[]]; [by cbn|].
  destruct (extractText (fd_file f0) (heap w)) as [[pdfText h]|e]; [|by cbn].
  cbn [heap setHeap].
  split; [|split; [|split; [apply substring_length_bound|]]];
    destruct (generateContent _) as [e|response]; try by cbn.
  - rewrite createPdfFromText_cases. by destruct (linesEncodable _).
  - rewrite createPdfFromText_cases. by destruct (linesEncodable _).
  - cbn zeta. rewrite createPdfFromText_cases.
    destruct (linesEncodable _) eqn:Henc; [|by cbn].
    eexists. split; [intros st; by apply createPdfFromText_run|]. by cbn.
Qed.

(** X15: [runConvertDoc] saves the reply of the model, or the empty text
    when the reply has none, as a text blob of type [application/msword]
    under the output name (or [converted_ok]) followed by [.doc]: the name
    is kept as it is, no [.pdf] is appended, and no PDF is made.  On a
    failure nothing is saved, the error is logged without an alert, and
    the status still reads [Converting to Doc...]. *)
Theorem runConvertDoc_outcome (w : World File Uint8Array) f0 rest :
  files w = f0 :: rest →
  let w' := runConvertDoc w in
  let name := (or_else (outputFilename w) "converted_ok" ++ ".doc")%string in
  let failed e :=
    downloads w' = downloads w
    ∧ consoleErrors w' = consoleErrors w ++ [e]
    ∧ status w' = "Converting to Doc..."%string in
  loading w' = false
  ∧ alerts w' = alerts w
  ∧ match newGoogleGenAI, extractText (fd_file f0) (heap w) with
    | inl e, _ => failed e
    | inr _, Throw e => failed (ServiceError e)
    | inr _, Ok (pdfText, _) =>
        match generateContent (convertRequest pdfText) with
        | inl e => failed e
        | inr response =>
            downloads w' =
              downloads w ++
              [({| blobPart := TextPart (text_or response EmptyString);
                   blobType := "application/msword" |}, name)]
            ∧ status w' = ("Saved as: " ++ name)%string
            ∧ consoleErrors w' = consoleErrors w
        end
    end.
Proof.
  intros Hfiles w' name failed.
  assert (finalName name = name) as Hname.
  { unfold finalName, name. by rewrite (endsWith_append _ ".doc"), orb_true_r. }
  unfold failed, w', runConvertDoc. rewrite Hfiles.
  unfold try_catch_finally, andThen, await, host, perform, convertRequest,
    geminiModel.
  cbn [heap setLoading setStatus].
  destruct newGoogleGenAI as [e|[]]; [by cbn|].
  destruct (extractText (fd_file f0) (heap w)) as [[pdfText h]|e]; [|by cbn].
  destruct (generateContent _) as [e|response]; [by cbn|].
  cbn. fold name. by rewrite Hname.
Qed.

(** X16: [runPhotoToPdf] sends the model the base64 data of the first
    file with its type.  When Helvetica can encode the lines of the
    reply, or of [No text found.] when the reply has no text, it saves
    their layout as one PDF under the output name (or [photo_ok]).  When
    the client, the file reader or the model fails, or the font cannot
    encode a line of the reply, it saves nothing, logs the error and
    alerts, and the status still reads [Extracting text from photo...]. *)
Theorem runPhotoToPdf_outcome (w : World File Uint8Array) f0 rest :
  files w = f0 :: rest →
  let w' := runPhotoToPdf w in
  let failed e :=
    downloads w' = downloads w
    ∧ consoleErrors w' = consoleErrors w ++ [e]
    ∧ alerts w' = alerts w ++ ["Error during photo conversion."%string]
    ∧ status w' = "Extracting text from photo..."%string in
  loading w' = false
  ∧ match newGoogleGenAI, fileToBase64 (fd_file f0) with
    | inl e, _ => failed e
    | inr _, inl e => failed e
    | inr _, inr base64 =>
        match generateContent
                (photoRequest base64 (file_type (fd_file f0))) with
        | inl e => failed e
        | inr response =>
            let extractedText := text_or response "No text found." in
            if linesEncodable (split_lines extractedText)
            then
              ∃ out,
                (∀ st, createPdfFromText extractedText
                         "Photo to PDF Result" st
                       = Ok (serialize out, st ++ [out]))
                ∧ downloads w' =
                    downloads w ++
                    [(pdfBlob (serialize out),
                      finalName (or_else (outputFilename w) "photo_ok"))]
                ∧ alerts w' = alerts w
                ∧ consoleErrors w' = consoleErrors w
            else failed (ServiceError EncodingError)
        end
    end.
Proof.
  intros Hfiles w' failed. unfold failed, w', runPhotoToPdf. rewrite Hfiles.
  unfold try_catch_finally, andThen, await, host, perform, photoRequest,
    geminiModel.
  cbn [heap setLoading setStatus].
  destruct newGoogleGenAI as [e|[]]; [by cbn|].
  destruct (fileToBase64 (fd_file f0)) as [e|base64]; [by cbn|].
  destruct (generateContent _) as [e|response]; [by cbn|].
  cbn zeta. rewrite createPdfFromText_cases.
  destruct (linesEncodable _) eqn:Henc; [|by cbn].
  split; [by cbn|].
  eexists. split; [intros st; by apply createPdfFromText_run|]. by cbn.
Qed.

Lemma removeFile_files id (w : World File Uint8Array) :
  files (removeFile id w) =
  List.filter (λ f, negb (String.eqb (fd_id f) id)) (files w).
Proof. reflexivity. Qed.

Lemma filter_other_ids id (l : list (FileData File)) :
  Forall (λ f, fd_id f ≠ id) l →
  List.filter (λ f, negb (String.eqb (fd_id f) id)) l = l.
Proof.
  induction 1 as [|f l Hf _ IH]; [done|]. cbn.
  apply String.eqb_neq in Hf. by rewrite Hf, IH.
Qed.

Lemma filter_same_id id (l : list (FileData File)) :
  Forall (λ f, fd_id f = id) l →
  List.filter (λ f, negb (String.eqb (fd_id f) id)) l = [].
Proof.
  induction 1 as [|f l Hf _ IH]; [done|]. cbn.
  apply String.eqb_eq in Hf. by rewrite Hf, IH.
Qed.

(** X17: uploading appends the picked files to the list, in order, and a
    cancelled pick changes nothing.  Removing an identifier leaves no file
    with that identifier and keeps the other files in their order; so
    removing the identifier of files just uploaded restores the earlier
    list, provided no earlier file had drawn the same identifier. *)
Theorem removeFile_after_upload (w : World File Uint8Array) id
    (picked : list (string * File)) :
  let uploaded := handleFileUpload (Some picked) w in
  handleFileUpload None w = w
  ∧ (∃ newFiles,
       files uploaded = files w ++ newFiles
       ∧ fd_id <$> newFiles = picked.*1
       ∧ fd_file <$> newFiles = picked.*2)
  ∧ Forall (λ f, fd_id f ≠ id) (files (removeFile id uploaded))
  ∧ files (removeFile id uploaded) `sublist_of` files uploaded
  ∧ (∀ f, f ∈ files uploaded → fd_id f ≠ id →
          f ∈ files (removeFile id uploaded))
  ∧ (Forall (λ f, fd_id f ≠ id) (files w) →
     Forall (λ p, p.1 = id) picked →
     files (removeFile id uploaded) = files w).
Proof.
  intros uploaded. split; [done|]. split.
  { eexists. split; [reflexivity|]. cbn.
    split; rewrite <- list_fmap_compose; by apply list_fmap_ext; intros ? [??]. }
  split_and!.
  - rewrite removeFile_files. apply Forall_forall.
    intros f Hin%list_elem_of_In.
    apply filter_In in Hin as [_ Hid]. apply negb_true_iff in Hid.
    by apply String.eqb_neq.
  - rewrite removeFile_files. generalize (files uploaded). intros l.
    induction l as [|f l IH]; [done|]. cbn.
    destruct (negb _); [by apply sublist_skip|by apply sublist_cons].
  - intros f Hin Hid. rewrite removeFile_files.
    apply list_elem_of_In, filter_In.
    split; [by apply list_elem_of_In|].
    apply negb_true_iff. by apply String.eqb_neq.
  - intros Hold Hnew. rewrite removeFile_files. unfold uploaded. cbn.
    rewrite List.filter_app, filter_other_ids by done.
    rewrite filter_same_id, app_nil_r; [done|].
    apply Forall_fmap. eapply Forall_impl; [exact Hnew|]. by intros [??].
Qed.

(** X18: [fileToBase64] returns what stands between the first comma of
    the data URL and the end, when neither the part before it nor the
    data contain a comma, as for [data:TYPE;base64,DATA]; for a URL
    without a comma it returns [undefined]. *)
Theorem fileToBase64_data_url file url :
  readAsDataURL file = inr url →
  (contains_char "," url = false → fileToBase64 file = inr None)
  ∧ (∀ header payload,
       url = (header ++ "," ++ payload)%string →
       contains_char "," header = false →
       contains_char "," payload = false →
       fileToBase64 file = inr (Some payload)).
Proof.
  intros Hurl. unfold fileToBase64. rewrite Hurl. split.
  - intros Hnone. by rewrite split_char_absent.
  - intros header payload -> Hheader Hpayload.
    change ("," ++ payload)%string with (String "," payload).
    by rewrite split_char_first, split_char_absent.
Qed.

(** X19: the GENERATE button has a handler in every mode but [HOME] and
    [READ]; while it is enabled, that is with a file uploaded and the
    busy flag cleared, the handler never alerts that a file must be
    uploaded first: it alerts nothing, or that merging needs two files, or
    that merging, splitting or the photo conversion failed. *)
Theorem generate_enabled_alerts m answer (w : World File Uint8Array) :
  generateDisabled w = false →
  match generate m answer with
  | None => m = HOME ∨ m = READ
  | Some run =>
      alerts (run w) = alerts w
      ∨ ∃ message,
          alerts (run w) = alerts w ++ [message]
          ∧ message ∈ ["Please upload at least 2 files to merge.";
                       "Error merging PDFs"; "Error splitting PDF";
                       "Error during photo conversion."]%string
  end.
Proof.
  unfold generateDisabled. intros [_ Hfiles]%orb_false_iff.
  destruct (files w) as [|f0 rest] eqn:Hw; [done|]. clear Hfiles.
  destruct m; cbn [generate]; try (by left); try (by right).
  - unfold runSplit, try_catch_finally, andThen, await, perform. rewrite Hw.
    run_cases; cbn; try (by left).
    right. eexists. split; [done|]. by repeat constructor.
  - unfold runMerge, try_catch_finally, andThen, await, perform.
    run_cases; cbn; try (by left);
      right; eexists; (split; [done|]); by repeat constructor.
  - unfold runConvertDoc, try_catch_finally, andThen, await, host, perform.
    rewrite Hw. run_cases; cbn; by left.
  - unfold runEdit, try_catch_finally, andThen, await, perform. rewrite Hw.
    run_cases; cbn; by left.
  - unfold runTranslate, try_catch_finally, andThen, await, host, perform.
    rewrite Hw. run_cases; cbn; by left.
  - unfold runPhotoToPdf, try_catch_finally, andThen, await, host, perform.
    rewrite Hw. run_cases; cbn; try (by left).
    all: right; eexists; (split; [done|]); by repeat constructor.
Qed.

(** X20: going back to the dashboard empties the file list and the chat
    and returns to [HOME], but keeps the output name, the typed question
    and the busy flag; the GENERATE button is then disabled, and each of
    the seven actions only alerts: nothing is saved, logged or marked
    busy until a file is uploaded again. *)
Theorem backToDashboard_then_action answer (w : World File Uint8Array) :
  let w0 := backToDashboard w in
  files w0 = [] ∧ chatHistory w0 = [] ∧ mode w0 = HOME
  ∧ status w0 = EmptyString
  ∧ outputFilename w0 = outputFilename w
  ∧ inputText w0 = inputText w
  ∧ loading w0 = loading w
  ∧ generateDisabled w0 = true
  ∧ Forall (λ run, ∃ message, run w0 = alert message w0) (actions answer).
Proof.
  intros w0. split_and!; try done.
  - unfold generateDisabled. cbn. apply orb_true_r.
  - unfold actions. repeat apply Forall_cons_2; [..|apply Forall_nil_2];
      by eexists.
Qed.

(** ** Merging and splitting together *)

Lemma omap_pageAt_segment (l post : list PDFPage) : ∀ pre,
  omap (λ n, pageAt (pre ++ l ++ post) (n - 1))
    (Z.of_nat <$> seq (S (length pre)) (length l)) = l.
Proof.
  induction l as [|pg l IH]; intros pre; [done|].
  cbn [length seq fmap list_fmap omap list_omap].
  replace (Z.of_nat (S (length pre)) - 1)%Z with (Z.of_nat (length pre))
    by lia.
  rewrite pageAt_of_nat. cbn [app].
  rewrite list_lookup_middle by done. f_equal.
  specialize (IH (pre ++ [pg])).
  rewrite length_app, Nat.add_1_r, <- app_assoc in IH. exact IH.
Qed.

Lemma mapM_app_Some {A B : Type} (f : A → option B) (l1 l2 : list A)
    (k1 k2 : list B) :
  mapM f l1 = Some k1 → mapM f l2 = Some k2 →
  mapM f (l1 ++ l2) = Some (k1 ++ k2).
Proof.
  intros H1%mapM_Some_1 H2%mapM_Some_1. apply mapM_Some_2.
  by apply Forall2_app.
Qed.

Lemma length_concat_pages (ds : list PDFDocument) :
  length (concat (docPages <$> ds))
  = sum_list ((λ d, length (docPages d)) <$> ds).
Proof.
  induction ds as [|d ds IH]; [done|]. cbn. by rewrite length_app, IH.
Qed.

(** X21: merging is compositional: when the files of two lists all parse
    and each list has a page, the document merged from the first list
    followed by the second has the pages of the merge of the first list
    and then the pages of the merge of the second, and as many pages as
    the sources have together. *)
Theorem mergePdfs_app files1 files2 ds1 ds2 st :
  mapM parse files1 = Some ds1 →
  mapM parse files2 = Some ds2 →
  concat (docPages <$> ds1) ≠ [] →
  concat (docPages <$> ds2) ≠ [] →
  ∃ out1 out2 out,
    outcome (mergePdfs files1 st) = inr (serialize out1)
    ∧ outcome (mergePdfs files2 st) = inr (serialize out2)
    ∧ outcome (mergePdfs (files1 ++ files2) st) = inr (serialize out)
    ∧ docPages out = docPages out1 ++ docPages out2
    ∧ length (docPages out)
        = sum_list ((λ d, length (docPages d)) <$> ds1 ++ ds2).
Proof.
  intros H1 H2 Hpages1 Hpages2. eexists _, _, _.
  rewrite (mergePdfs_run files1 ds1), (mergePdfs_run files2 ds2) by done.
  rewrite (mergePdfs_run (files1 ++ files2) (ds1 ++ ds2))
    by by apply mapM_app_Some.
  assert (concat (docPages <$> ds1 ++ ds2)
          = concat (docPages <$> ds1) ++ concat (docPages <$> ds2)) as Happ
    by by rewrite fmap_app, concat_app.
  assert (concat (docPages <$> ds1 ++ ds2) ≠ []) as Hpages.
  { rewrite Happ. intros [Hnone _]%app_eq_nil. done. }
  split_and!; try done; cbn [docPages]; rewrite !savedPages_nonempty by done.
  - done.
  - apply length_concat_pages.
Qed.

(** X22: splitting undoes merging: if the document saved by merging two
    files, each with a page, is uploaded again and parses to what was
    saved, then asking for the first pages, as many as the first file
    has, gives the pages of the first file, and asking for the pages
    after them gives the pages of the second. *)
Theorem splitPdf_of_merged file1 file2 merged d1 d2 out bytes st st' :
  parse file1 = Some d1 →
  parse file2 = Some d2 →
  docPages d1 ≠ [] →
  docPages d2 ≠ [] →
  mergePdfs [file1; file2] st = Ok (bytes, st ++ out :: [d1; d2]) →
  parse merged = Some out →
  let n1 := length (docPages d1) in
  let n2 := length (docPages d2) in
  outcome (splitPdf merged (Z.of_nat <$> seq 1 n1) st')
    = inr (serialize {| docPages := docPages d1; docFonts := [] |})
  ∧ outcome (splitPdf merged (Z.of_nat <$> seq (S n1) n2) st')
    = inr (serialize {| docPages := docPages d2; docFonts := [] |}).
Proof.
  intros Hd1 Hd2 Hpages1 Hpages2 Hmerge Hround n1 n2.
  assert (mapM parse [file1; file2] = Some [d1; d2]) as Hparse
    by (cbn; by rewrite Hd1, Hd2).
  rewrite (mergePdfs_run _ _ st Hparse) in Hmerge.
  injection Hmerge as _ Hstore. apply app_inv_head in Hstore.
  injection Hstore as <-. cbn [fmap list_fmap concat] in Hround.
  rewrite app_nil_r in Hround.
  rewrite savedPages_nonempty in Hround
    by (intros [Hnone _]%app_eq_nil; done).
  pose proof (omap_pageAt_segment (docPages d1) (docPages d2) []) as Hseg1.
  pose proof (omap_pageAt_segment (docPages d2) [] (docPages d1)) as Hseg2.
  rewrite app_nil_r in Hseg2. cbn [app length] in Hseg1.
  subst n1 n2. split.
  - rewrite (splitPdf_run merged _ _ _ st' Hround
               (splitPdf_indices_pages _ _)).
    cbn [outcome docPages]. rewrite Hseg1.
    by rewrite savedPages_nonempty.
  - rewrite (splitPdf_run merged _ _ _ st' Hround
               (splitPdf_indices_pages _ _)).
    cbn [outcome docPages]. rewrite Hseg2.
    by rewrite savedPages_nonempty.
Qed.
End Service.

Arguments mergePdfs {File Uint8Array} parse serialize defaultWidth defaultHeight files.
Arguments splitPdf {File Uint8Array} parse serialize defaultWidth defaultHeight file pageNumbers.
Arguments editPdf {File Uint8Array} parse serialize defaultWidth defaultHeight drawable file overlayText.
Arguments extractText {File} readItems file.
Arguments createPdfFromText {Uint8Array} serialize defaultWidth defaultHeight drawable text title.
Arguments runMerge {File Uint8Array} parse serialize defaultWidth defaultHeight w.
Arguments runSplit {File Uint8Array} parse serialize defaultWidth defaultHeight answer w.
Arguments runEdit {File Uint8Array} parse serialize defaultWidth defaultHeight drawable answer w.
Arguments runRead {File Uint8Array} readItems newGoogleGenAI generateContent w.
Arguments runTranslate {File Uint8Array} serialize readItems defaultWidth defaultHeight drawable newGoogleGenAI generateContent w.
Arguments runConvertDoc {File Uint8Array} readItems newGoogleGenAI generateContent w.
Arguments runPhotoToPdf {File Uint8Array} serialize defaultWidth defaultHeight drawable newGoogleGenAI generateContent readAsDataURL file_type w.
Arguments fileToBase64 {File} readAsDataURL file.
Arguments generateDisabled {File Uint8Array} w.

(** ** The service on the sample inputs *)

Example split_lines_sample :
  split_lines ("ab" ++ nl ++ nl ++ "c" ++ nl)%string =
  ["ab"; EmptyString; "c"; EmptyString]%string.
Proof. reflexivity. Qed.

Example substring_sample :
  substring "overlay" 1 4 = "ver"%string
  ∧ substring "overlay" 4 1 = "ver"%string
  ∧ substring "overlay" 0 100 = "overlay"%string.
Proof. by repeat split. Qed.

Example toString_sample : toString 120 = "120"%string.
Proof. reflexivity. Qed.

Example splitPdf_indices_out_of_range : splitPdf_indices [0; 10]%Z 5 = [].
Proof. reflexivity. Qed.

(** An A4 page, 841.89 units high, holds 43 lines. *)
Example pageCapacity_A4 : pageCapacity 841.89 = 43.
Proof. reflexivity. Qed.

(** Merging the two sample documents gives their three pages in order. *)
Lemma mergePdfs_concatenates_sample :
  mapM Some [reportDoc; cardDoc] = Some [reportDoc; cardDoc]
  ∧ ∃ out,
      mergePdfs Some id 595.28%Q 841.89%Q [reportDoc; cardDoc] [] =
        Ok (out, [out; reportDoc; cardDoc])
      ∧ docPages out = [letterPage; cardPage; cardPage].
Proof.
  split; [reflexivity|].
  destruct (mergePdfs_concatenates PDFDocument PDFDocument Some id
              595.28%Q 841.89%Q [reportDoc; cardDoc] [reportDoc; cardDoc] []
              eq_refl) as (out & Hrun & Hpages & _).
  exists out. split; [exact Hrun|]. rewrite Hpages; [reflexivity|].
  discriminate.
Defined.

(** C2 fails for a source without pages: the source has no page, and the
    merged document has one, the default page of [save]. *)
Lemma mergePdfs_pageless_source :
  ∃ out,
    mergePdfs Some id 595.28%Q 841.89%Q [pagelessDoc] [] =
      Ok (out, [out; pagelessDoc])
    ∧ concat (docPages <$> [pagelessDoc]) = []
    ∧ docPages out = [blankPage 595.28 841.89]
    ∧ length (docPages out) ≠ length (docPages pagelessDoc).
Proof.
  eexists. split; [reflexivity|]. split; [reflexivity|].
  split; [reflexivity|]. cbn. discriminate.
Qed.




(** The three operations on the sample documents. *)
Lemma loaded_documents_after_operations_sample :
  mapM Some [reportDoc; cardDoc] = Some [reportDoc; cardDoc]
  ∧ Some reportDoc = Some reportDoc
  ∧ canEncode printableAscii HelveticaBold "DRAFT" = true
  ∧ (∃ out,
       mergePdfs Some id 595.28%Q 841.89%Q [reportDoc; cardDoc] [] =
       Ok (out, [out; reportDoc; cardDoc]))
  ∧ (∃ out,
       splitPdf Some id 595.28%Q 841.89%Q reportDoc [2; 7; 2]%Z [] =
       Ok (out, [reportDoc; out]))
  ∧ (∃ out,
       editPdf Some id 595.28%Q 841.89%Q printableAscii reportDoc "DRAFT" [] =
       Ok (out, [out])
       ∧ docFonts out = [HelveticaBold]).
Proof.
  split; [reflexivity|]. split; [reflexivity|]. split; [reflexivity|].
  destruct (loaded_documents_after_operations PDFDocument PDFDocument Some id
              595.28%Q 841.89%Q printableAscii [reportDoc; cardDoc]
              [reportDoc; cardDoc] reportDoc reportDoc [2; 7; 2]%Z "DRAFT" []
              eq_refl eq_refl eq_refl)
    as (Hmerge & Hsplit & out & Hrun & _ & Hfonts).
  split; [exact Hmerge|]. split; [exact Hsplit|].
  exists out. split; [exact Hrun|exact Hfonts].
Defined.

(** C7 fails for [editPdf]: after stamping the sample document the store
    holds one document only, the loaded one, and it is no longer the
    document that was parsed. *)
Lemma editPdf_mutates_loaded_document :
  ∃ out st',
    editPdf Some id 595.28%Q 841.89%Q printableAscii reportDoc "DRAFT" [] =
      Ok (out, st')
    ∧ st' = [out]
    ∧ st' !! 0 ≠ Some reportDoc.
Proof.
  eexists _, _. split; [reflexivity|]. split; [reflexivity|].
  cbn. discriminate.
Qed.






(** The text of the three-page sample has three delimiter lines. *)
Lemma extractText_blocks_sample :
  Some reportItems = Some reportItems
  ∧ ∃ fullText,
      extractText Some reportItems [] = Ok (fullText, [])
      ∧ occurrences pageMarker fullText = 3.
Proof.
  split; [reflexivity|].
  destruct (extractText_blocks (list (list string)) Some reportItems
              reportItems [] eq_refl)
    as (fullText & Hrun & _ & _ & _ & _ & Hclean).
  exists fullText. split; [exact Hrun|].
  apply Hclean. repeat constructor.
Defined.

(** C4 fails on a page whose text reads like a delimiter line: the
    document has one page and the result has two delimiter lines. *)
Lemma extractText_delimiter_in_page_text :
  length delimiterItems = 1
  ∧ ∃ fullText,
      extractText Some delimiterItems [] = Ok (fullText, [])
      ∧ fullText =
          ("--- Page 1 ---" ++ nl ++ "--- Page 1 ---" ++ nl ++ nl)%string
      ∧ occurrences pageMarker fullText = 2.
Proof.
  split; [reflexivity|].
  exists ("--- Page 1 ---" ++ nl ++ "--- Page 1 ---" ++ nl ++ nl)%string.
  split; [|split]; by vm_compute.
Qed.

(** ** Further runs on the sample inputs *)

(** On A4 the 44 lines of the sample text take two pages. *)
Lemma createPdfFromText_line_positions_sample :
  (120 <= 841.89)%Q
  ∧ linesEncodable printableAscii (split_lines longText) = true
  ∧ ∃ out,
      createPdfFromText id 595.28%Q 841.89%Q printableAscii longText "notes"
        [] = Ok (out, [out])
      ∧ length (docPages out) = 2.
Proof.
  assert (120 <= 841.89)%Q as Hheight by (unfold Qle; simpl; lia).
  split; [exact Hheight|]. split; [reflexivity|].
  destruct (createPdfFromText_line_positions PDFDocument id 595.28%Q
              841.89%Q printableAscii longText "notes" [] Hheight eq_refl)
    as (out & Hrun & _ & Hpages & _).
  exists out. split; [exact Hrun|]. rewrite Hpages. reflexivity.
Defined.

(** The answer [3, 1 ,12] reads as the pages 3, 1 and 12. *)
Lemma parsePageNumbers_typed_sample :
  Forall (λ entry : nat * nat * nat, (Z.of_nat entry.1.2 < 2 ^ 53)%Z)
    [(0, 3, 0); (1, 1, 1); (0, 12, 0)]
  ∧ parsePageNumbers "3, 1 ,12" = [3; 1; 12]%Z.
Proof.
  assert (Forall (λ entry : nat * nat * nat, (Z.of_nat entry.1.2 < 2 ^ 53)%Z)
            [(0, 3, 0); (1, 1, 1); (0, 12, 0)]) as Hsmall.
  { repeat constructor; reflexivity. }
  split; [exact Hsmall|].
  exact (parsePageNumbers_typed [(0, 3, 0); (1, 1, 1); (0, 12, 0)] Hsmall).
Defined.

(** Splitting the two-page sample into all its pages, in order. *)
Lemma splitPdf_all_pages_sample :
  Some reportDoc = Some reportDoc
  ∧ docPages reportDoc ≠ []
  ∧ splitPdf Some id 595.28%Q 841.89%Q reportDoc [1; 2]%Z []
    = Ok ({| docPages := [letterPage; cardPage]; docFonts := [] |},
          [reportDoc;
           {| docPages := [letterPage; cardPage]; docFonts := [] |}]).
Proof.
  assert (docPages reportDoc ≠ []) as Hpages by discriminate.
  split; [reflexivity|]. split; [exact Hpages|].
  exact (proj1 (splitPdf_all_pages PDFDocument PDFDocument Some id
                  595.28%Q 841.89%Q reportDoc reportDoc [] eq_refl Hpages)).
Defined.

(** The text of the three-page sample is not empty. *)
Lemma extractText_empty_iff_no_page_sample :
  sampleReader reportDoc = Some reportItems
  ∧ ∃ fullText,
      extractText sampleReader reportDoc [] = Ok (fullText, [])
      ∧ fullText ≠ EmptyString.
Proof.
  split; [reflexivity|].
  destruct (extractText_empty_iff_no_page PDFDocument sampleReader reportDoc
              reportItems [] eq_refl) as (fullText & Hrun & Hempty & _).
  exists fullText. split; [exact Hrun|].
  intros Hnone. apply Hempty in Hnone. discriminate Hnone.
Defined.

(** Asking the sample application for the pages [2, 1,2]. *)
Lemma runSplit_typed_pages_sample :
  files deskWorld = reportFile :: [cardFile]
  ∧ Some reportDoc = Some reportDoc
  ∧ [(0, 2, 0); (1, 1, 0); (0, 2, 0)] ≠ []
  ∧ Forall (λ entry : nat * nat * nat, (Z.of_nat entry.1.2 < 2 ^ 53)%Z)
      [(0, 2, 0); (1, 1, 0); (0, 2, 0)]
  ∧ downloads (runSplit Some id 595.28%Q 841.89%Q (Some "2, 1,2"%string)
                 deskWorld) =
      [({| blobPart := BytesPart
             {| docPages := [cardPage; letterPage; cardPage];
                docFonts := [] |};
           blobType := "application/pdf" |}, "result.pdf"%string)].
Proof.
  assert (Forall (λ entry : nat * nat * nat, (Z.of_nat entry.1.2 < 2 ^ 53)%Z)
            [(0, 2, 0); (1, 1, 0); (0, 2, 0)]) as Hsmall.
  { repeat constructor; reflexivity. }
  assert ([(0, 2, 0); (1, 1, 0); (0, 2, 0)] ≠ ([] : list (nat * nat * nat)))
    as Hne by discriminate.
  split; [reflexivity|]. split; [reflexivity|]. split; [exact Hne|].
  split; [exact Hsmall|].
  exact (proj1 (runSplit_typed_pages PDFDocument PDFDocument Some id
                  595.28%Q 841.89%Q deskWorld reportFile [cardFile] reportDoc
                  [(0, 2, 0); (1, 1, 0); (0, 2, 0)]
                  eq_refl eq_refl Hne Hsmall)).
Defined.

(** Stamping the first file of the sample application. *)
Lemma runEdit_outcome_sample :
  files deskWorld = reportFile :: [cardFile]
  ∧ "DRAFT"%string ≠ EmptyString
  ∧ length (downloads (runEdit Some id 595.28%Q 841.89%Q printableAscii
                         (Some "DRAFT"%string) deskWorld)) = 1
  ∧ alerts (runEdit Some id 595.28%Q 841.89%Q printableAscii
              (Some "DRAFT"%string) deskWorld) = [].
Proof.
  assert ("DRAFT"%string ≠ EmptyString) as Htext by discriminate.
  split; [reflexivity|]. split; [exact Htext|].
  destruct (runEdit_outcome PDFDocument PDFDocument Some id 595.28%Q
              841.89%Q printableAscii deskWorld reportFile [cardFile] "DRAFT"
              eq_refl Htext)
    as (_ & _ & _ & Halerts & Hsaved).
  cbv beta iota in Hsaved.
  split; [|exact Halerts].
  destruct Hsaved as [Hdownloads _]. rewrite Hdownloads. reflexivity.
Defined.

(** Asking the question of the sample application. *)
Lemma runRead_outcome_sample :
  files deskWorld = reportFile :: [cardFile]
  ∧ inputText deskWorld ≠ EmptyString
  ∧ chatHistory (runRead sampleReader (inr tt) sampleModel deskWorld) =
      [{| role := RoleUser; content := "What is this?" |};
       {| role := RoleModel; content := "Namaste" |}]
  ∧ inputText (runRead sampleReader (inr tt) sampleModel deskWorld)
      = EmptyString.
Proof.
  assert (inputText deskWorld ≠ EmptyString) as Hinput by discriminate.
  split; [reflexivity|]. split; [exact Hinput|].
  destruct (runRead_outcome PDFDocument PDFDocument sampleReader (inr tt)
              sampleModel deskWorld reportFile [cardFile] eq_refl Hinput)
    as (Hcleared & _ & _ & _ & Hchat & _).
  split; [exact Hchat|exact Hcleared].
Defined.

(** Translating the first file of the sample application. *)
Lemma runTranslate_outcome_sample :
  files deskWorld = reportFile :: [cardFile]
  ∧ length (downloads (runTranslate id sampleReader 595.28%Q 841.89%Q
                         printableAscii (inr tt) sampleModel deskWorld)) = 1
  ∧ loading (runTranslate id sampleReader 595.28%Q 841.89%Q
               printableAscii (inr tt) sampleModel deskWorld) = false.
Proof.
  split; [reflexivity|].
  destruct (runTranslate_outcome PDFDocument PDFDocument id sampleReader
              595.28%Q 841.89%Q printableAscii (inr tt) sampleModel deskWorld
              reportFile [cardFile] eq_refl)
    as (Hloading & _ & _ & out & _ & Hdownloads & _).
  split; [rewrite Hdownloads; reflexivity|exact Hloading].
Defined.

(** Converting the first file of the sample application. *)
Lemma runConvertDoc_outcome_sample :
  files deskWorld = reportFile :: [cardFile]
  ∧ downloads (runConvertDoc sampleReader (inr tt) sampleModel deskWorld) =
      [({| blobPart := TextPart "Namaste";
           blobType := "application/msword" |}, "result.doc"%string)].
Proof.
  split; [reflexivity|].
  destruct (runConvertDoc_outcome PDFDocument PDFDocument sampleReader
              (inr tt) sampleModel deskWorld reportFile [cardFile] eq_refl)
    as (_ & _ & Hdownloads & _).
  exact Hdownloads.
Defined.

(** Converting the first file of the sample application as a photo. *)
Lemma runPhotoToPdf_outcome_sample :
  files deskWorld = reportFile :: [cardFile]
  ∧ length (downloads (runPhotoToPdf id 595.28%Q 841.89%Q printableAscii
                         (inr tt) sampleModel sampleDataURL
                         (λ _, "image/png"%string) deskWorld)) = 1.
Proof.
  split; [reflexivity|].
  destruct (runPhotoToPdf_outcome PDFDocument PDFDocument id 595.28%Q
              841.89%Q printableAscii (inr tt) sampleModel sampleDataURL
              (λ _, "image/png"%string) deskWorld reportFile [cardFile]
              eq_refl)
    as (_ & out & _ & Hdownloads & _).
  rewrite Hdownloads. reflexivity.
Defined.

(** The data of the sample data URL. *)
Lemma fileToBase64_data_url_sample :
  sampleDataURL reportDoc = inr "data:image/png;base64,aGVsbG8="%string
  ∧ fileToBase64 sampleDataURL reportDoc = inr (Some "aGVsbG8="%string).
Proof.
  split; [reflexivity|].
  exact (proj2 (fileToBase64_data_url PDFDocument sampleDataURL reportDoc _
                  eq_refl)
           "data:image/png;base64"%string "aGVsbG8="%string
           eq_refl eq_refl eq_refl).
Defined.

(** Merging through the button of the sample application alerts
    nothing. *)
Lemma generate_enabled_alerts_sample :
  generateDisabled deskWorld = false
  ∧ alerts (runMerge Some id 595.28%Q 841.89%Q deskWorld) = [].
Proof.
  split; [reflexivity|].
  pose proof (generate_enabled_alerts PDFDocument PDFDocument Some id
                sampleReader 595.28%Q 841.89%Q printableAscii (inr tt)
                sampleModel
                sampleDataURL (λ _, "image/png"%string) MERGE None
                deskWorld eq_refl) as Halerts.
  cbn [generate] in Halerts.
  destruct Halerts as [Hnone|(message & Hone & _)]; [exact Hnone|].
  vm_compute in Hone. discriminate Hone.
Defined.

(** Merging the sample documents one by one and together. *)
Lemma mergePdfs_app_sample :
  mapM Some [reportDoc] = Some [reportDoc]
  ∧ mapM Some [cardDoc] = Some [cardDoc]
  ∧ concat (docPages <$> [reportDoc]) ≠ []
  ∧ concat (docPages <$> [cardDoc]) ≠ []
  ∧ ∃ out,
      outcome (mergePdfs Some id 595.28%Q 841.89%Q [reportDoc; cardDoc] [])
        = inr out
      ∧ length (docPages out) = 3.
Proof.
  assert (concat (docPages <$> [reportDoc]) ≠ []) as Hpages1 by discriminate.
  assert (concat (docPages <$> [cardDoc]) ≠ []) as Hpages2 by discriminate.
  split; [reflexivity|]. split; [reflexivity|].
  split; [exact Hpages1|]. split; [exact Hpages2|].
  destruct (mergePdfs_app PDFDocument PDFDocument Some id 595.28%Q 841.89%Q
              [reportDoc] [cardDoc] [reportDoc] [cardDoc] [] eq_refl eq_refl
              Hpages1 Hpages2)
    as (out1 & out2 & out & _ & _ & Hrun & _ & Hcount).
  exists out. split; [exact Hrun|exact Hcount].
Defined.

(** Splitting the merged sample back into its two sources. *)
Lemma splitPdf_of_merged_sample :
  Some reportDoc = Some reportDoc
  ∧ Some cardDoc = Some cardDoc
  ∧ docPages reportDoc ≠ []
  ∧ docPages cardDoc ≠ []
  ∧ mergePdfs Some id 595.28%Q 841.89%Q [reportDoc; cardDoc] []
    = Ok (mergedDoc, [] ++ mergedDoc :: [reportDoc; cardDoc])
  ∧ Some mergedDoc = Some mergedDoc
  ∧ outcome (splitPdf Some id 595.28%Q 841.89%Q mergedDoc [1; 2]%Z [])
    = inr reportDoc
  ∧ outcome (splitPdf Some id 595.28%Q 841.89%Q mergedDoc [3]%Z [])
    = inr cardDoc.
Proof.
  assert (docPages reportDoc ≠ []) as Hpages1 by discriminate.
  assert (docPages cardDoc ≠ []) as Hpages2 by discriminate.
  split; [reflexivity|]. split; [reflexivity|].
  split; [exact Hpages1|]. split; [exact Hpages2|].
  split; [reflexivity|]. split; [reflexivity|].
  exact (splitPdf_of_merged PDFDocument PDFDocument Some id 595.28%Q
           841.89%Q reportDoc cardDoc mergedDoc reportDoc cardDoc mergedDoc
           mergedDoc [] [] eq_refl eq_refl Hpages1 Hpages2 eq_refl eq_refl).
Defined.
